(** * librambutan: I2C register interface and Wirish SPI baud selection

    A shallow embedding of [libmaple/include/libmaple/i2c.h] (the inline
    register-interface routines of the I2C driver) and of the baud-rate
    selection of [wirish/comm/HardwareSPI.cpp].

    Registers are 32-bit unsigned values, carried as [Z].  The peripheral's
    registers are [__io] (volatile): the hardware may change them between
    two accesses by the CPU.  This is modelled by a function [hw] that is
    applied to the register block before every volatile read. *)

From Stdlib Require Import ZArith List Bool Lia.
Import ListNotations.

Local Open Scope Z_scope.

(** ** 32-bit helpers *)

Definition ones32 : Z := 0xFFFFFFFF.

(** C's [~x] on a [uint32]. *)
Definition not32 (x : Z) : Z := Z.land (Z.lnot x) ones32.

(** [1U << n] *)
Definition bit (n : Z) : Z := Z.shiftl 1 n.

Module I2c.

(** ** Data model *)

(** [struct i2c_reg_map] *)
Record i2c_reg_map : Type := mk_reg_map {
  CR1 : Z;    (* Control register 1 *)
  CR2 : Z;    (* Control register 2 *)
  OAR1 : Z;   (* Own address register 1 *)
  OAR2 : Z;   (* Own address register 2 *)
  DR : Z;     (* Data register *)
  SR1 : Z;    (* Status register 1 *)
  SR2 : Z;    (* Status register 2 *)
  CCR : Z;    (* Clock control register *)
  TRISE : Z   (* TRISE (rise time) register *)
}.

(** Names of the members of the register block, for register accesses. *)
Inductive reg_name : Type :=
| R_CR1 | R_CR2 | R_OAR1 | R_OAR2 | R_DR | R_SR1 | R_SR2 | R_CCR | R_TRISE.

Definition get_reg (r : reg_name) (m : i2c_reg_map) : Z :=
  match r with
  | R_CR1 => CR1 m | R_CR2 => CR2 m | R_OAR1 => OAR1 m | R_OAR2 => OAR2 m
  | R_DR => DR m | R_SR1 => SR1 m | R_SR2 => SR2 m | R_CCR => CCR m
  | R_TRISE => TRISE m
  end.

Definition set_reg (r : reg_name) (v : Z) (m : i2c_reg_map) : i2c_reg_map :=
  match r with
  | R_CR1 => mk_reg_map v (CR2 m) (OAR1 m) (OAR2 m) (DR m) (SR1 m) (SR2 m) (CCR m) (TRISE m)
  | R_CR2 => mk_reg_map (CR1 m) v (OAR1 m) (OAR2 m) (DR m) (SR1 m) (SR2 m) (CCR m) (TRISE m)
  | R_OAR1 => mk_reg_map (CR1 m) (CR2 m) v (OAR2 m) (DR m) (SR1 m) (SR2 m) (CCR m) (TRISE m)
  | R_OAR2 => mk_reg_map (CR1 m) (CR2 m) (OAR1 m) v (DR m) (SR1 m) (SR2 m) (CCR m) (TRISE m)
  | R_DR => mk_reg_map (CR1 m) (CR2 m) (OAR1 m) (OAR2 m) v (SR1 m) (SR2 m) (CCR m) (TRISE m)
  | R_SR1 => mk_reg_map (CR1 m) (CR2 m) (OAR1 m) (OAR2 m) (DR m) v (SR2 m) (CCR m) (TRISE m)
  | R_SR2 => mk_reg_map (CR1 m) (CR2 m) (OAR1 m) (OAR2 m) (DR m) (SR1 m) v (CCR m) (TRISE m)
  | R_CCR => mk_reg_map (CR1 m) (CR2 m) (OAR1 m) (OAR2 m) (DR m) (SR1 m) (SR2 m) v (TRISE m)
  | R_TRISE => mk_reg_map (CR1 m) (CR2 m) (OAR1 m) (OAR2 m) (DR m) (SR1 m) (SR2 m) (CCR m) v
  end.

(** [enum i2c_state] *)
Inductive i2c_state : Type :=
| I2C_STATE_DISABLED
| I2C_STATE_IDLE
| I2C_STATE_XFER_DONE
| I2C_STATE_BUSY
| I2C_STATE_ERROR.

(** The enumerators' values. *)
Definition i2c_state_value (s : i2c_state) : Z :=
  match s with
  | I2C_STATE_DISABLED => 0
  | I2C_STATE_IDLE => 1
  | I2C_STATE_XFER_DONE => 2
  | I2C_STATE_BUSY => 3
  | I2C_STATE_ERROR => -1
  end.

Definition i2c_state_eqb (a b : i2c_state) : bool :=
  i2c_state_value a =? i2c_state_value b.

Definition I2C_MSG_READ : Z := 0x1.
Definition I2C_MSG_10BIT_ADDR : Z := 0x2.

(** [struct i2c_msg]; the caller's buffer [data] is a list of bytes. *)
Record i2c_msg : Type := mk_msg {
  addr : Z;
  flags : Z;
  length : Z;
  xferred : Z;
  data : list Z
}.

(** [struct i2c_dev].  [regs] is the register block the device points to;
    [gpio_port] is kept as the port's address. *)
Record i2c_dev : Type := mk_dev {
  regs : i2c_reg_map;
  msg : list i2c_msg;
  error_flags : Z;
  timestamp : Z;
  gpio_port : Z;
  msgs_left : Z;
  sda_pin : Z;
  scl_pin : Z;
  clk_id : Z;
  ev_nvic_line : Z;
  er_nvic_line : Z;
  state : i2c_state
}.

Definition set_regs (d : i2c_dev) (m : i2c_reg_map) : i2c_dev :=
  mk_dev m (msg d) (error_flags d) (timestamp d) (gpio_port d) (msgs_left d)
         (sda_pin d) (scl_pin d) (clk_id d) (ev_nvic_line d) (er_nvic_line d)
         (state d).

Definition set_state (d : i2c_dev) (s : i2c_state) : i2c_dev :=
  mk_dev (regs d) (msg d) (error_flags d) (timestamp d) (gpio_port d)
         (msgs_left d) (sda_pin d) (scl_pin d) (clk_id d) (ev_nvic_line d)
         (er_nvic_line d) s.

(** ** Register bit definitions *)

(* Control register 1 *)
Definition I2C_CR1_SWRST : Z := bit 15.
Definition I2C_CR1_ALERT : Z := bit 13.
Definition I2C_CR1_PEC : Z := bit 12.
Definition I2C_CR1_POS : Z := bit 11.
Definition I2C_CR1_ACK : Z := bit 10.
Definition I2C_CR1_STOP : Z := bit 9.
Definition I2C_CR1_START : Z := bit 8.
Definition I2C_CR1_PE : Z := bit 0.

(* Control register 2 *)
Definition I2C_CR2_LAST : Z := bit 12.
Definition I2C_CR2_DMAEN : Z := bit 11.
Definition I2C_CR2_ITBUFEN : Z := bit 10.
Definition I2C_CR2_ITEVTEN : Z := bit 9.
Definition I2C_CR2_ITERREN : Z := bit 8.
Definition I2C_CR2_FREQ : Z := 0xFFF.

(* Clock control register *)
Definition I2C_CCR_FS : Z := bit 15.
Definition I2C_CCR_DUTY : Z := bit 14.
Definition I2C_CCR_CCR : Z := 0xFFF.

(* Status register 1 *)
Definition I2C_SR1_SB : Z := bit 0.
Definition I2C_SR1_ADDR : Z := bit 1.
Definition I2C_SR1_BTF : Z := bit 2.
Definition I2C_SR1_ADD10 : Z := bit 3.
Definition I2C_SR1_STOPF : Z := bit 4.
Definition I2C_SR1_RXNE : Z := bit 6.
Definition I2C_SR1_TXE : Z := bit 7.
Definition I2C_SR1_BERR : Z := bit 8.
Definition I2C_SR1_ARLO : Z := bit 9.
Definition I2C_SR1_AF : Z := bit 10.
Definition I2C_SR1_OVR : Z := bit 11.
Definition I2C_SR1_PECERR : Z := bit 12.
Definition I2C_SR1_TIMEOUT : Z := bit 14.
Definition I2C_SR1_SMBALERT : Z := bit 15.

(* Status register 2 *)
Definition I2C_SR2_MSL : Z := bit 0.
Definition I2C_SR2_BUSY : Z := bit 1.
Definition I2C_SR2_TRA : Z := bit 2.

(* I2C enable options *)
Definition I2C_FAST_MODE : Z := 0x1.
Definition I2C_DUTY_16_9 : Z := 0x2.
Definition I2C_REMAP : Z := 0x4.
Definition I2C_BUS_RESET : Z := 0x8.

Definition I2C_ERROR_PROTOCOL : Z := -1.
Definition I2C_ERROR_TIMEOUT : Z := -2.

Definition I2C_IRQ_ERROR : Z := I2C_CR2_ITERREN.
Definition I2C_IRQ_EVENT : Z := I2C_CR2_ITEVTEN.
Definition I2C_IRQ_BUFFER : Z := I2C_CR2_ITBUFEN.

(** ** Register accesses as a small state monad

    A computation runs on a device, may not return (a busy-wait that is
    out of fuel gives [None]), and logs every access it makes to a
    register of the peripheral and every assignment to [dev->state]. *)

Inductive io_event : Type :=
| IoRead (r : reg_name) (v : Z)
| IoWrite (r : reg_name) (v : Z)
| StateWrite (s : i2c_state).

Definition io (A : Type) : Type :=
  i2c_dev -> option (A * i2c_dev * list io_event).

Definition ret {A : Type} (a : A) : io A := fun d => Some (a, d, []).

Definition bind {A B : Type} (c : io A) (k : A -> io B) : io B :=
  fun d =>
    match c d with
    | None => None
    | Some (a, d1, l1) =>
        match k a d1 with
        | None => None
        | Some (b, d2, l2) => Some (b, d2, l1 ++ l2)
        end
    end.

Notation "x <- c ;; k" := (bind c (fun x => k))
  (at level 61, c at next level, right associativity).
Notation "c ;;; k" := (bind c (fun _ => k))
  (at level 61, right associativity).

(** [dev->state = s] *)
Definition write_state (s : i2c_state) : io unit :=
  fun d => Some (tt, set_state d s, [StateWrite s]).

(** [dev->regs->r = v] *)
Definition reg_write (r : reg_name) (v : Z) : io unit :=
  fun d => Some (tt, set_regs d (set_reg r v (regs d)), [IoWrite r v]).

Section RegisterInterface.

(** What the peripheral does to its registers between two accesses. *)
Variable hw : i2c_reg_map -> i2c_reg_map.

(** A volatile read of [dev->regs->r]. *)
Definition reg_read (r : reg_name) : io Z :=
  fun d =>
    let m := hw (regs d) in
    Some (get_reg r m, set_regs d m, [IoRead r (get_reg r m)]).

(** [i2c_disable] *)
Definition i2c_disable : io unit :=
  cr1 <- reg_read R_CR1 ;;
  reg_write R_CR1 (Z.land cr1 (not32 I2C_CR1_PE)) ;;;
  write_state I2C_STATE_DISABLED.

(** [i2c_peripheral_enable] *)
Definition i2c_peripheral_enable : io unit :=
  cr1 <- reg_read R_CR1 ;;
  reg_write R_CR1 (Z.lor cr1 I2C_CR1_PE).

(** [i2c_peripheral_disable] *)
Definition i2c_peripheral_disable : io unit :=
  cr1 <- reg_read R_CR1 ;;
  reg_write R_CR1 (Z.land cr1 (not32 I2C_CR1_PE)).

(** [i2c_write]; [byte] is a [uint8]. *)
Definition i2c_write (byte : Z) : io unit :=
  reg_write R_DR byte.

(** [i2c_set_input_clk]: the local [cr2] is computed and the register is
    then assigned [freq]. *)
Definition i2c_set_input_clk (freq : Z) : io unit :=
  cr2 <- reg_read R_CR2 ;;
  let cr2 := Z.land cr2 (not32 I2C_CR2_FREQ) in
  let cr2 := Z.lor cr2 freq in
  reg_write R_CR2 freq.

(** [i2c_set_clk_control] *)
Definition i2c_set_clk_control (val : Z) : io unit :=
  ccr <- reg_read R_CCR ;;
  let ccr := Z.land ccr (not32 I2C_CCR_CCR) in
  let ccr := Z.lor ccr val in
  reg_write R_CCR ccr.

(** [i2c_set_trise] *)
Definition i2c_set_trise (trise : Z) : io unit :=
  reg_write R_TRISE trise.

(** The three condition bits polled by the busy-waits. *)
Definition cr1_cond_mask : Z :=
  Z.lor (Z.lor I2C_CR1_START I2C_CR1_STOP) I2C_CR1_PEC.

(** The loop condition [cr1 & (START | STOP | PEC)], as C tests it. *)
Definition cond_pending (cr1 : Z) : bool :=
  negb (Z.land cr1 cr1_cond_mask =? 0).

(** [while ((cr1 = dev->regs->CR1) & (START | STOP | PEC)) ;] with at most
    [fuel] polls; the value is the last [cr1]. *)
Fixpoint wait_cond_clear (fuel : nat) : io Z :=
  match fuel with
  | O => fun _ => None
  | S f =>
      cr1 <- reg_read R_CR1 ;;
      if cond_pending cr1 then wait_cond_clear f else ret cr1
  end.

(** The device after [dev->regs->CR1 |= b]. *)
Definition after_set (b : Z) (d0 : i2c_dev) : i2c_dev :=
  set_regs (set_regs d0 (hw (regs d0)))
           (set_reg R_CR1 (Z.lor (CR1 (hw (regs d0))) b) (hw (regs d0))).

(** [i2c_start_condition] *)
Definition i2c_start_condition (fuel : nat) : io unit :=
  wait_cond_clear fuel ;;;
  cr1 <- reg_read R_CR1 ;;
  reg_write R_CR1 (Z.lor cr1 I2C_CR1_START).

(** [i2c_stop_condition] *)
Definition i2c_stop_condition (fuel : nat) : io unit :=
  wait_cond_clear fuel ;;;
  cr1 <- reg_read R_CR1 ;;
  reg_write R_CR1 (Z.lor cr1 I2C_CR1_STOP) ;;;
  wait_cond_clear fuel ;;;
  ret tt.

(** [i2c_enable_irq] *)
Definition i2c_enable_irq (irqs : Z) : io unit :=
  cr2 <- reg_read R_CR2 ;;
  reg_write R_CR2 (Z.lor cr2 irqs).

(** [i2c_disable_irq] *)
Definition i2c_disable_irq (irqs : Z) : io unit :=
  cr2 <- reg_read R_CR2 ;;
  reg_write R_CR2 (Z.land cr2 (not32 irqs)).

(** [i2c_enable_ack] *)
Definition i2c_enable_ack : io unit :=
  cr1 <- reg_read R_CR1 ;;
  reg_write R_CR1 (Z.lor cr1 I2C_CR1_ACK).

(** [i2c_disable_ack] *)
Definition i2c_disable_ack : io unit :=
  cr1 <- reg_read R_CR1 ;;
  reg_write R_CR1 (Z.land cr1 (not32 I2C_CR1_ACK)).

End RegisterInterface.

(** ** The transaction engine and the public operations

    [i2c.h] only declares [i2c_init], [i2c_master_enable], [i2c_master_xfer]
    and [i2c_bus_reset]; their bodies are not part of the sources at hand.
    The definitions of this part follow the specification. *)

(** What is observed on the two wires. *)
Inductive bus_event : Type :=
| BusStart
| BusRepStart
| BusAddr (a : Z) (rd : bool)
| BusAddr10Header (a : Z) (rd : bool)
| BusAddr10Low (a : Z)
| BusData (b : Z)
| BusStop.

(** What the bus answers at a blocking wait point: progress (with the byte
    received, when receiving), error-class status bits, or nothing. *)
Inductive bus_resp : Type :=
| BusReady (v : Z)
| BusFault (sr1 : Z)
| BusStall.

Inductive xfer_outcome : Type :=
| XferSuccess
| XferProtocolError (sr1 : Z)
| XferTimeout.

(** The result of one blocking wait. *)
Inductive wait_result : Type :=
| WaitOk (v : Z)
| WaitAbort (o : xfer_outcome)
| WaitForever.

Record xfer_report : Type := mk_report {
  rep_status : Z;
  rep_msgs : list i2c_msg;
  rep_trace : list bus_event
}.

Definition set_xferred (m : i2c_msg) (n : Z) : i2c_msg :=
  mk_msg (addr m) (flags m) (length m) n (data m).

Definition set_error_flags (d : i2c_dev) (f : Z) : i2c_dev :=
  mk_dev (regs d) (msg d) f (timestamp d) (gpio_port d) (msgs_left d)
         (sda_pin d) (scl_pin d) (clk_id d) (ev_nvic_line d) (er_nvic_line d)
         (state d).

Definition msg_is_read (m : i2c_msg) : bool :=
  negb (Z.land (flags m) I2C_MSG_READ =? 0).

Definition msg_is_10bit (m : i2c_msg) : bool :=
  negb (Z.land (flags m) I2C_MSG_10BIT_ADDR =? 0).

(** Modelled from the spec: the address phase of [i2c_master_xfer], whose
    body is missing: one byte for 7-bit addressing, a two-phase header
    for 10-bit addressing. *)
Definition address_phase (m : i2c_msg) : list bus_event :=
  if msg_is_10bit m
  then [BusAddr10Header (addr m) (msg_is_read m); BusAddr10Low (addr m)]
  else [BusAddr (addr m) (msg_is_read m)].

(** Modelled from the spec: the watchdog of [i2c_master_xfer], whose body
    is missing: a wait point without progress returns the timeout error
    when [timeout] is not 0 and blocks without bound when it is 0; an
    error-class status bit aborts with the protocol error. *)
Definition wait_point (bus : nat -> bus_resp) (timeout : Z) (n : nat)
  : wait_result :=
  match bus n with
  | BusReady v => WaitOk v
  | BusFault sr1 => WaitAbort (XferProtocolError sr1)
  | BusStall => if timeout =? 0 then WaitForever else WaitAbort XferTimeout
  end.

(** Modelled from the spec: the data phase of [i2c_master_xfer], whose
    body is missing: for each byte wait for the data register, transfer
    the byte, increment the transferred count, decrement the remaining
    length; abort at the first error, keeping the partial count.  [n]
    numbers the wait points; the result is [None] when a wait blocks for
    ever. *)
Fixpoint xfer_bytes (bus : nat -> bus_resp) (timeout : Z) (rd : bool)
    (buf : list Z) (remaining : nat) (n : nat) (xf : Z)
  : option (xfer_outcome * nat * Z * list bus_event) :=
  match remaining with
  | O => Some (XferSuccess, n, xf, [])
  | S r =>
      match wait_point bus timeout n with
      | WaitOk v =>
          let b := if rd then v else nth (Z.to_nat xf) buf 0 in
          match xfer_bytes bus timeout rd buf r (S n) (xf + 1) with
          | Some (o, n', xf', evs) => Some (o, n', xf', BusData b :: evs)
          | None => None
          end
      | WaitAbort o => Some (o, n, xf, [])
      | WaitForever => None
      end
  end.

(** Modelled from the spec: the message loop of [i2c_master_xfer], whose
    body is missing: START for the first message and a repeated START for
    every later one, the address phase, the data phase, and STOP after the
    last byte of the last message; an error abandons the rest of the
    queue. *)
Fixpoint xfer_queue (bus : nat -> bus_resp) (timeout : Z) (first : bool)
    (msgs : list i2c_msg) (n : nat)
  : option (xfer_outcome * list i2c_msg * list bus_event) :=
  match msgs with
  | [] => Some (XferSuccess, [], [])
  | m :: rest =>
      let start := if first then BusStart else BusRepStart in
      match wait_point bus timeout n with
      | WaitForever => None
      | WaitAbort o => Some (o, m :: rest, [start])
      | WaitOk _ =>
          match wait_point bus timeout (S n) with
          | WaitForever => None
          | WaitAbort o => Some (o, m :: rest, start :: address_phase m)
          | WaitOk _ =>
              match xfer_bytes bus timeout (msg_is_read m) (data m)
                               (Z.to_nat (length m)) (S (S n)) 0 with
              | None => None
              | Some (XferSuccess, n', xf, evs) =>
                  match rest with
                  | [] =>
                      Some (XferSuccess, [set_xferred m xf],
                            start :: address_phase m ++ evs ++ [BusStop])
                  | _ :: _ =>
                      match xfer_queue bus timeout false rest n' with
                      | None => None
                      | Some (o, rest', evs') =>
                          Some (o, set_xferred m xf :: rest',
                                start :: address_phase m ++ evs ++ evs')
                      end
                  end
              | Some (o, _, xf, evs) =>
                  Some (o, set_xferred m xf :: rest,
                        start :: address_phase m ++ evs)
              end
          end
      end
  end.

(** Modelled from the spec: the state a transaction ends in, which the
    missing body of [i2c_master_xfer] assigns: XferDone on completion,
    Error on a fault. *)
Definition final_state (o : xfer_outcome) : i2c_state :=
  match o with
  | XferSuccess => I2C_STATE_XFER_DONE
  | _ => I2C_STATE_ERROR
  end.

(** Modelled from the spec: [error_flags] is populated on a protocol
    error only. *)
Definition captured_flags (o : xfer_outcome) : Z :=
  match o with
  | XferProtocolError sr1 => sr1
  | _ => 0
  end.

(** The values successively assigned to [dev->state]. *)
Fixpoint state_writes (l : list io_event) : list i2c_state :=
  match l with
  | [] => []
  | StateWrite s :: l' => s :: state_writes l'
  | _ :: l' => state_writes l'
  end.

Section Engine.

(** The status [i2c_master_xfer] returns on success; the header names the
    two error codes only. *)
Variable I2C_SUCCESS : Z.

(** Modelled from the spec: the status code of [i2c_master_xfer], whose
    body is missing, for each way a transaction ends. *)
Definition xfer_status (o : xfer_outcome) : Z :=
  match o with
  | XferSuccess => I2C_SUCCESS
  | XferProtocolError _ => I2C_ERROR_PROTOCOL
  | XferTimeout => I2C_ERROR_TIMEOUT
  end.

(** What a caller can tell from the returned status alone. *)
Inductive xfer_kind : Type := KindSuccess | KindProtocol | KindTimeout.

Definition outcome_kind (o : xfer_outcome) : xfer_kind :=
  match o with
  | XferSuccess => KindSuccess
  | XferProtocolError _ => KindProtocol
  | XferTimeout => KindTimeout
  end.

Definition classify_status (rc : Z) : xfer_kind :=
  if rc =? I2C_ERROR_PROTOCOL then KindProtocol
  else if rc =? I2C_ERROR_TIMEOUT then KindTimeout
  else KindSuccess.

(** Modelled from the spec: [i2c_init], whose body is missing: reset the
    peripheral to defaults, state to Idle. *)
Definition i2c_init : io unit :=
  write_state I2C_STATE_IDLE.

(** Modelled from the spec: [i2c_bus_reset], whose body is missing: the
    recovery sequence pulses the clock line through the GPIO driver.  The
    header declares it on a [const i2c_dev *]: it assigns no member of the
    device, so the state is left as it is. *)
Definition i2c_bus_reset : io unit :=
  ret tt.

(** Modelled from the spec: [i2c_master_enable], whose body is missing:
    an optional bus reset first, then the peripheral is enabled and the
    device is Idle.  The clock and pin configuration, which is delegated
    to other drivers, is left out. *)
Definition i2c_master_enable (hw : i2c_reg_map -> i2c_reg_map) (fl : Z)
  : io unit :=
  (if negb (Z.land fl I2C_BUS_RESET =? 0) then i2c_bus_reset else ret tt) ;;;
  i2c_peripheral_enable hw ;;;
  write_state I2C_STATE_IDLE.

(** Modelled from the spec: the states a transaction may be started in:
    Idle, and XferDone or Error, which return to Idle at the next
    transaction.  No transaction may be started on a Busy device, and the
    specification has no transition out of Disabled but the one to Idle
    made by init and enable. *)
Definition xfer_allowed (s : i2c_state) : bool :=
  match s with
  | I2C_STATE_IDLE | I2C_STATE_XFER_DONE | I2C_STATE_ERROR => true
  | I2C_STATE_DISABLED | I2C_STATE_BUSY => false
  end.

(** Modelled from the spec: the start of a transaction in
    [i2c_master_xfer], whose body is missing: a device left in XferDone or
    Error returns to Idle, [error_flags] is cleared and the device becomes
    Busy. *)
Definition xfer_begin : io unit :=
  fun d =>
    ((match state d with
      | I2C_STATE_XFER_DONE | I2C_STATE_ERROR => write_state I2C_STATE_IDLE
      | _ => ret tt
      end) ;;;
     (fun d1 => Some (tt, set_error_flags d1 0, [])) ;;;
     write_state I2C_STATE_BUSY) d.

(** Modelled from the spec: the end of a transaction in
    [i2c_master_xfer], whose body is missing: the status bits of a
    protocol error are captured, the device ends in XferDone or Error and
    the status is returned. *)
Definition xfer_finish (o : xfer_outcome) (msgs : list i2c_msg)
    (evs : list bus_event) : io xfer_report :=
  (fun d1 => Some (tt, set_error_flags d1 (captured_flags o), [])) ;;;
  write_state (final_state o) ;;;
  ret (mk_report (xfer_status o) msgs evs).

(** Modelled from the spec: [i2c_master_xfer], whose body is missing: on
    a device a transaction may be started on, the transaction begins, the
    queue runs and the transaction ends; the call does not return when a
    wait blocks for ever.  On a Disabled or Busy device it starts nothing:
    no bus event, no change of the device; the specification names no
    status for that case and the model reports the protocol error. *)
Definition i2c_master_xfer (bus : nat -> bus_resp) (msgs : list i2c_msg)
    (timeout : Z) : io xfer_report :=
  fun d =>
    if xfer_allowed (state d) then
      match xfer_queue bus timeout true
              (map (fun m => set_xferred m 0) msgs) 0 with
      | None => None
      | Some (o, msgs', evs) => (xfer_begin ;;; xfer_finish o msgs' evs) d
      end
    else Some (mk_report I2C_ERROR_PROTOCOL msgs [], d, []).

(** The public operations of the driver. *)
Inductive public_op : Type :=
| OpInit
| OpMasterEnable (fl : Z)
| OpMasterXfer (bus : nat -> bus_resp) (msgs : list i2c_msg) (timeout : Z)
| OpBusReset
| OpDisable.

Definition run_op (hw : i2c_reg_map -> i2c_reg_map) (op : public_op)
  : io unit :=
  match op with
  | OpInit => i2c_init
  | OpMasterEnable fl => i2c_master_enable hw fl
  | OpMasterXfer bus msgs timeout => i2c_master_xfer bus msgs timeout ;;; ret tt
  | OpBusReset => i2c_bus_reset
  | OpDisable => i2c_disable hw
  end.

Fixpoint run_ops (hw : i2c_reg_map -> i2c_reg_map) (ops : list public_op)
  : io unit :=
  match ops with
  | [] => ret tt
  | op :: rest => run_op hw op ;;; run_ops hw rest
  end.

(** The values one operation assigns to the state, and the device it
    returns with.  A transfer that blocks for ever has begun its
    transaction: its assignments are those of [xfer_begin], and there is
    no device to go on with. *)
Definition op_state_writes (hw : i2c_reg_map -> i2c_reg_map)
    (op : public_op) (d : i2c_dev) : list i2c_state * option i2c_dev :=
  match run_op hw op d with
  | Some (_, d', log) => (state_writes log, Some d')
  | None =>
      (match xfer_begin d with
       | Some (_, _, log) => state_writes log
       | None => []
       end, None)
  end.

(** The values a sequence of operations assigns to the state, up to its
    end or to the transfer that blocks. *)
Fixpoint ops_state_writes (hw : i2c_reg_map -> i2c_reg_map)
    (ops : list public_op) (d : i2c_dev) : list i2c_state :=
  match ops with
  | [] => []
  | op :: rest =>
      match op_state_writes hw op d with
      | (w, Some d') => w ++ ops_state_writes hw rest d'
      | (w, None) => w
      end
  end.

End Engine.

(** Modelled from the spec: the status [i2c_master_xfer] returns on
    success.  Neither the header nor the specification gives its value;
    the specification only says that the two errors are negative codes
    distinguishable from it.  The model takes 0. *)
Definition I2C_SUCCESS_STATUS : Z := 0.

(** The first answer of the bus that is not progress, among the [count]
    wait points from [n] on. *)
Fixpoint first_trouble (bus : nat -> bus_resp) (n count : nat)
  : option bus_resp :=
  match count with
  | O => None
  | S c =>
      match bus n with
      | BusReady _ => first_trouble bus (S n) c
      | r => Some r
      end
  end.

(** How a transaction ends when [tr] is the first trouble it meets;
    [None] when it blocks for ever. *)
Definition trouble_outcome (timeout : Z) (tr : option bus_resp)
  : option xfer_outcome :=
  match tr with
  | None | Some (BusReady _) => Some XferSuccess
  | Some (BusFault sr1) => Some (XferProtocolError sr1)
  | Some BusStall => if timeout =? 0 then None else Some XferTimeout
  end.

(** The wait points of a queue that runs to its end: the START, the
    address and each byte of every message. *)
Fixpoint wait_points (msgs : list i2c_msg) : nat :=
  match msgs with
  | [] => O
  | m :: rest => (2 + Z.to_nat (length m) + wait_points rest)%nat
  end.

(** ** The state machine of [dev->state] *)

(** The transitions the specification lists. *)
Definition listed_transition (a b : i2c_state) : bool :=
  match a, b with
  | I2C_STATE_DISABLED, I2C_STATE_IDLE
  | I2C_STATE_IDLE, I2C_STATE_BUSY
  | I2C_STATE_BUSY, I2C_STATE_XFER_DONE
  | I2C_STATE_BUSY, I2C_STATE_ERROR
  | I2C_STATE_XFER_DONE, I2C_STATE_IDLE
  | I2C_STATE_ERROR, I2C_STATE_IDLE => true
  | _, _ => false
  end.

(** The listed transitions, and any state to Disabled. *)
Definition listed_or_disable (a b : i2c_state) : bool :=
  listed_transition a b || i2c_state_eqb b I2C_STATE_DISABLED.

(** Every change of the state, from [s] along the assigned values, is a
    transition [allowed] admits. *)
Fixpoint path_ok (allowed : i2c_state -> i2c_state -> bool)
    (s : i2c_state) (p : list i2c_state) : bool :=
  match p with
  | [] => true
  | s' :: p' => (i2c_state_eqb s s' || allowed s s') && path_ok allowed s' p'
  end.

Definition is_disable (op : public_op) : bool :=
  match op with OpDisable => true | _ => false end.

Definition is_stop (e : bus_event) : bool :=
  match e with BusStop => true | _ => false end.

Definition is_rep_start (e : bus_event) : bool :=
  match e with BusRepStart => true | _ => false end.

Definition is_start (e : bus_event) : bool :=
  match e with BusStart => true | _ => false end.

(** How many events of a trace satisfy [p]. *)
Definition count_events (p : bus_event -> bool) (t : list bus_event) : nat :=
  List.length (filter p t).

(** ** Concrete hardware and devices *)

(** A peripheral that completes a pending condition before the next
    access: it clears START, STOP and PEC and leaves the rest alone. *)
Definition hw_settle (m : i2c_reg_map) : i2c_reg_map :=
  set_reg R_CR1 (Z.land (CR1 m) (not32 cr1_cond_mask)) m.

(** A peripheral that does nothing by itself. *)
Definition hw_still (m : i2c_reg_map) : i2c_reg_map := m.

Definition regs_reset : i2c_reg_map := mk_reg_map 0 0 0 0 0 0 0 0 0.

Definition dev_with (m : i2c_reg_map) (s : i2c_state) : i2c_dev :=
  mk_dev m [] 0 0 0x40010C00 0 7 6 21 31 32 s.

(** An enabled device in the middle of a reception: PE set, a received
    byte waiting in DR (RXNE) and the bus busy. *)
Definition regs_inflight : i2c_reg_map :=
  mk_reg_map I2C_CR1_PE 0 0 0 0x5A I2C_SR1_RXNE
             (Z.lor I2C_SR2_MSL I2C_SR2_BUSY) 0 0.

(** A device with the three interrupts enabled and FREQ at 8 MHz. *)
Definition regs_irqs_on : i2c_reg_map :=
  mk_reg_map I2C_CR1_PE
             (Z.lor (Z.lor (Z.lor I2C_CR2_ITERREN I2C_CR2_ITEVTEN)
                           I2C_CR2_ITBUFEN) 8)
             0 0 0 0 0 (Z.lor I2C_CCR_FS 30) 0.

(** A device with a STOP still pending. *)
Definition regs_stop_pending : i2c_reg_map :=
  mk_reg_map (Z.lor I2C_CR1_PE I2C_CR1_STOP) 0 0 0 0 0 0 0 0.

(** The two chained messages: a write of two bytes, a read of three. *)
Definition msg_write2 (a d0 d1 : Z) : i2c_msg := mk_msg a 0 2 0 [d0; d1].
Definition msg_read3 (b : Z) : i2c_msg := mk_msg b I2C_MSG_READ 3 0 [0; 0; 0].

(** ** Assumptions on the peripheral *)

(** The hardware leaves register [r] to the software. *)
Definition hw_keeps (r : reg_name) (hw : i2c_reg_map -> i2c_reg_map) : Prop :=
  forall m, get_reg r (hw m) = get_reg r m.

(** The hardware eventually clears START, STOP and PEC: from any register
    contents, some later read of CR1 finds none of them set. *)
Definition hw_completes (hw : i2c_reg_map -> i2c_reg_map) : Prop :=
  forall m, exists n, cond_pending (CR1 (Nat.iter (S n) hw m)) = false.

(** The hardware does not raise START, STOP or PEC by itself. *)
Definition hw_raises_none (hw : i2c_reg_map -> i2c_reg_map) : Prop :=
  forall m, cond_pending (CR1 m) = false -> cond_pending (CR1 (hw m)) = false.

(** The peripheral is idle: no received byte waits in DR and the bus is
    not busy. *)
Definition drained_and_idle (m : i2c_reg_map) : Prop :=
  Z.land (SR1 m) I2C_SR1_RXNE = 0 /\ Z.land (SR2 m) I2C_SR2_BUSY = 0.

(** A bus without faults: every wait point makes progress; [rx] is what
    the slave sends. *)
Definition bus_fault_free (rx : nat -> Z) : nat -> bus_resp :=
  fun n => BusReady (rx n).

End I2c.

Module Spi.

(** ** Wirish SPI: the baud rate for a requested frequency *)

(** [spi_baud_rate], the prescaler settings [baud_rates] lists. *)
Inductive spi_baud_rate : Type :=
| SPI_BAUD_PCLK_DIV_2
| SPI_BAUD_PCLK_DIV_4
| SPI_BAUD_PCLK_DIV_8
| SPI_BAUD_PCLK_DIV_16
| SPI_BAUD_PCLK_DIV_32
| SPI_BAUD_PCLK_DIV_64
| SPI_BAUD_PCLK_DIV_128
| SPI_BAUD_PCLK_DIV_256.

(** The bus a peripheral's clock hangs on, as [rcc_dev_clk] reports it. *)
Inductive rcc_clk_domain : Type := RCC_APB1 | RCC_APB2 | RCC_AHB.

Definition rcc_clk_domain_eqb (a b : rcc_clk_domain) : bool :=
  match a, b with
  | RCC_APB1, RCC_APB1 | RCC_APB2, RCC_APB2 | RCC_AHB, RCC_AHB => true
  | _, _ => false
  end.

(** [spi_dev], of which the code at hand reads [clk_id] only. *)
Record spi_dev : Type := mk_spi_dev { clk_id : Z }.

(** The initializers of [baud_rates], in order. *)
Definition baud_rates : list spi_baud_rate :=
  [SPI_BAUD_PCLK_DIV_2; SPI_BAUD_PCLK_DIV_4; SPI_BAUD_PCLK_DIV_8;
   SPI_BAUD_PCLK_DIV_16; SPI_BAUD_PCLK_DIV_32; SPI_BAUD_PCLK_DIV_64;
   SPI_BAUD_PCLK_DIV_128; SPI_BAUD_PCLK_DIV_256].

(** What [determine_baud_rate] does: the assertion branch (which returns
    [(spi_baud_rate)~0]), an element of the table, or an access past the
    end of the table. *)
Inductive baud_result : Type :=
| BaudAssert
| BaudEntry (i : N) (b : spi_baud_rate)
| BaudOutOfBounds (i : N).

Section Baud.

(** Declared in [HardwareSPI.h] and [rcc.h], which are not part of the
    sources at hand: the size of the table, the slowest frequency, and
    the clock domain of a device. *)
Variable MAX_SPI_FREQS : N.
Variable SPI_140_625KHZ : N.
Variable rcc_dev_clk : Z -> rcc_clk_domain.

(** [baud_rates[i]] for an array declared with [MAX_SPI_FREQS] elements:
    elements without an initializer are zero, which is the first
    enumerator's value. *)
Definition baud_rates_at (i : N) : baud_result :=
  if (i <? MAX_SPI_FREQS)%N
  then BaudEntry i (nth (N.to_nat i) baud_rates SPI_BAUD_PCLK_DIV_2)
  else BaudOutOfBounds i.

(** [determine_baud_rate] *)
Definition determine_baud_rate (dev : spi_dev) (freq : N) : baud_result :=
  if rcc_clk_domain_eqb (rcc_dev_clk (clk_id dev)) RCC_APB2
     && (freq =? SPI_140_625KHZ)%N
  then BaudAssert
  else if rcc_clk_domain_eqb (rcc_dev_clk (clk_id dev)) RCC_APB2
       then baud_rates_at (freq + 1)%N
       else baud_rates_at freq.

(** The first steps of [enable_device]: the guard on [freq], then the
    baud rate; [None] is the guard's early return. *)
Definition enable_device_baud (dev : spi_dev) (freq : N)
  : option baud_result :=
  if (MAX_SPI_FREQS <=? freq)%N then None
  else Some (determine_baud_rate dev freq).

End Baud.

(** A LeafLabs-style board: SPI1 (clock id 12) is on APB2, the other SPI
    devices are on APB1. *)
Definition rcc_dev_clk_maple (id : Z) : rcc_clk_domain :=
  if id =? 12 then RCC_APB2 else RCC_APB1.

Definition spi1 : spi_dev := mk_spi_dev 12.

End Spi.

Module HardwareSPI.

(** ** Wirish SPI: the methods of [HardwareSPI]

    The methods drive one SPI device through the routines of [spi.h],
    [timer.h] and [gpio.h], which are not part of the sources at hand.
    Each routine is a parameter: a call on the state of the world that
    gives a result and a new state.  A method logs the calls it makes. *)

Definition u32 (x : Z) : Z := x mod 2 ^ 32.

(** [(uint8)x] *)
Definition u8 (x : Z) : Z := x mod 2 ^ 8.

(** [buf[i] = v] on a buffer held as a list; a store past the end, which
    C leaves undefined, changes nothing. *)
Fixpoint list_set (buf : list Z) (i : nat) (v : Z) : list Z :=
  match buf, i with
  | [], _ => []
  | _ :: t, O => v :: t
  | h :: t, S j => h :: list_set t j v
  end.

Inductive spi_event : Type :=
| EvAssert
| EvIsEnabled (b : bool)
| EvRxNonempty (b : bool)
| EvRxReg (v : Z)
| EvTxEmpty (b : bool)
| EvBusy (b : bool)
| EvPeripheralDisable
| EvTx (buf : list Z) (len : Z) (n : Z).

(** The values read from the data register, in order. *)
Fixpoint received (l : list spi_event) : list Z :=
  match l with
  | [] => []
  | EvRxReg v :: l' => v :: received l'
  | _ :: l' => received l'
  end.

(** Every read of the data register comes right after a poll that found
    the receiver non-empty; [ready] tells whether the last event was such
    a poll. *)
Fixpoint reads_when_ready (ready : bool) (l : list spi_event) : bool :=
  match l with
  | [] => true
  | EvRxReg _ :: l' => ready && reads_when_ready false l'
  | EvRxNonempty b :: l' => reads_when_ready b l'
  | _ :: l' => reads_when_ready false l'
  end.

(** The buffers handed to [spi_tx], each cut to the count it reported. *)
Fixpoint transmitted (l : list spi_event) : list Z :=
  match l with
  | [] => []
  | EvTx buf _ n :: l' => firstn (Z.to_nat n) buf ++ transmitted l'
  | _ :: l' => transmitted l'
  end.

(** Whether an event touches the device. *)
Definition is_device_access (e : spi_event) : bool :=
  match e with EvAssert => false | _ => true end.

Section Port.

Variable world : Type.

(** The routines of [spi.h] on [this->spi_d]. *)
Variable spi_is_enabled : world -> bool * world.
Variable spi_is_rx_nonempty : world -> bool * world.
Variable spi_rx_reg : world -> Z * world.
Variable spi_is_tx_empty : world -> bool * world.
Variable spi_is_busy : world -> bool * world.
Variable spi_peripheral_disable : world -> world.
Variable spi_tx : list Z -> Z -> world -> Z * world.

Definition spi_io (A : Type) : Type :=
  world -> option (A * world * list spi_event).

Definition ret {A : Type} (a : A) : spi_io A := fun s => Some (a, s, []).

Definition bind {A B : Type} (c : spi_io A) (k : A -> spi_io B) : spi_io B :=
  fun s =>
    match c s with
    | None => None
    | Some (a, s1, l1) =>
        match k a s1 with
        | None => None
        | Some (b, s2, l2) => Some (b, s2, l1 ++ l2)
        end
    end.

Definition spin {A : Type} : spi_io A := fun _ => None.

Notation "x <- c ;; k" := (bind c (fun x => k))
  (at level 61, c at next level, right associativity).
Notation "c ;;; k" := (bind c (fun _ => k))
  (at level 61, right associativity).

Definition call_assert : spi_io unit := fun s => Some (tt, s, [EvAssert]).

Definition call_is_enabled : spi_io bool :=
  fun s => Some (fst (spi_is_enabled s), snd (spi_is_enabled s),
                 [EvIsEnabled (fst (spi_is_enabled s))]).

Definition call_is_rx_nonempty : spi_io bool :=
  fun s => Some (fst (spi_is_rx_nonempty s), snd (spi_is_rx_nonempty s),
                 [EvRxNonempty (fst (spi_is_rx_nonempty s))]).

Definition call_rx_reg : spi_io Z :=
  fun s => Some (fst (spi_rx_reg s), snd (spi_rx_reg s),
                 [EvRxReg (fst (spi_rx_reg s))]).

Definition call_is_tx_empty : spi_io bool :=
  fun s => Some (fst (spi_is_tx_empty s), snd (spi_is_tx_empty s),
                 [EvTxEmpty (fst (spi_is_tx_empty s))]).

Definition call_is_busy : spi_io bool :=
  fun s => Some (fst (spi_is_busy s), snd (spi_is_busy s),
                 [EvBusy (fst (spi_is_busy s))]).

Definition call_peripheral_disable : spi_io unit :=
  fun s => Some (tt, spi_peripheral_disable s, [EvPeripheralDisable]).

Definition call_tx (buf : list Z) (len : Z) : spi_io Z :=
  fun s => Some (fst (spi_tx buf len s), snd (spi_tx buf len s),
                 [EvTx buf len (fst (spi_tx buf len s))]).

(** [while (spi_is_rx_nonempty(spi_d)) { rx = spi_rx_reg(spi_d); }] *)
Fixpoint drain_rx (fuel : nat) : spi_io unit :=
  match fuel with
  | O => spin
  | S f =>
      b <- call_is_rx_nonempty ;;
      if b then call_rx_reg ;;; drain_rx f else ret tt
  end.

(** [while (!spi_is_tx_empty(spi_d)) ;] *)
Fixpoint wait_tx_empty (fuel : nat) : spi_io unit :=
  match fuel with
  | O => spin
  | S f =>
      b <- call_is_tx_empty ;;
      if negb b then wait_tx_empty f else ret tt
  end.

(** [while (spi_is_busy(spi_d)) ;] *)
Fixpoint wait_not_busy (fuel : nat) : spi_io unit :=
  match fuel with
  | O => spin
  | S f =>
      b <- call_is_busy ;;
      if b then wait_not_busy f else ret tt
  end.

(** [HardwareSPI::end] *)
Definition end_ (fuel : nat) : spi_io unit :=
  en <- call_is_enabled ;;
  if negb en then ret tt
  else
    drain_rx fuel ;;;
    wait_tx_empty fuel ;;;
    wait_not_busy fuel ;;;
    call_peripheral_disable.

(** [while (!spi_is_rx_nonempty(spi_d)) ;] *)
Fixpoint wait_rx (fuel : nat) : spi_io unit :=
  match fuel with
  | O => spin
  | S f =>
      b <- call_is_rx_nonempty ;;
      if negb b then wait_rx f else ret tt
  end.

(** The loop of [HardwareSPI::read(uint8 *buf, uint32 len)]: [turns]
    bounds the turns of the loop, [w] the polls of each wait. *)
Fixpoint read_loop (turns w : nat) (len rxed : Z) (buf : list Z)
  : spi_io (list Z) :=
  match turns with
  | O => spin
  | S t =>
      if rxed <? len then
        wait_rx w ;;;
        v <- call_rx_reg ;;
        read_loop t w len (u32 (rxed + 1)) (list_set buf (Z.to_nat rxed) (u8 v))
      else ret buf
  end.

(** [HardwareSPI::read(uint8 *buf, uint32 len)]; the value is the buffer
    at return. *)
Definition read_buf (fuel : nat) (buf : list Z) (len : Z) : spi_io (list Z) :=
  read_loop fuel fuel len 0 buf.

(** [HardwareSPI::read(void)] *)
Definition read (fuel : nat) : spi_io Z :=
  buf <- read_buf fuel [0] 1 ;;
  ret (nth 0 buf 0).

(** The loop of [HardwareSPI::write(uint8 *data, uint32 length)]. *)
Fixpoint write_loop (turns : nat) (data : list Z) (len txed : Z)
  : spi_io unit :=
  match turns with
  | O => spin
  | S t =>
      if txed <? len then
        n <- call_tx (skipn (Z.to_nat txed) data) (u32 (len - txed)) ;;
        write_loop t data len (u32 (txed + n))
      else ret tt
  end.

(** [HardwareSPI::write(uint8 *data, uint32 length)] *)
Definition write_buf (fuel : nat) (data : list Z) (len : Z) : spi_io unit :=
  write_loop fuel data len 0.

(** [HardwareSPI::write(uint8 byte)] *)
Definition write (fuel : nat) (byte : Z) : spi_io unit :=
  write_buf fuel [byte] 1.

(** [HardwareSPI::transfer] *)
Definition transfer (fuel : nat) (byte : Z) : spi_io Z :=
  write fuel byte ;;;
  read fuel.

(** The loop of [HardwareSPI::send(uint8 *buf, uint32 len)]. *)
Fixpoint send_loop (turns w : nat) (buf : list Z) (len txed : Z) (r : Z)
  : spi_io Z :=
  match turns with
  | O => spin
  | S t =>
      if txed <? len then
        write w (nth (Z.to_nat txed) buf 0) ;;;
        r' <- read w ;;
        send_loop t w buf len (u32 (txed + 1)) r'
      else ret r
  end.

(** [HardwareSPI::send(uint8 *buf, uint32 len)] *)
Definition send_buf (fuel : nat) (buf : list Z) (len : Z) : spi_io Z :=
  if len =? 0 then call_assert ;;; ret 0
  else send_loop fuel fuel buf len 0 0.

(** [HardwareSPI::send(uint8 data)] *)
Definition send (fuel : nat) (data : Z) : spi_io Z :=
  send_buf fuel [data] 1.

(** [HardwareSPI::recv] *)
Definition recv (fuel : nat) : spi_io Z := read fuel.

(** The shape the three flag polls share: call [f], log the flag with
    [ev], and poll again until the flag is [target]. *)
Fixpoint poll_until (f : world -> bool * world) (ev : bool -> spi_event)
    (target : bool) (fuel : nat) : spi_io unit :=
  match fuel with
  | O => spin
  | S n =>
      fun s =>
        if Bool.eqb (fst (f s)) target
        then Some (tt, snd (f s), [ev (fst (f s))])
        else match poll_until f ev target n (snd (f s)) with
             | None => None
             | Some (_, s', l) => Some (tt, s', ev (fst (f s)) :: l)
             end
  end.

(** The flag [f] reaches [target] after finitely many polls. *)
Definition flag_reaches (f : world -> bool * world) (target : bool) : Prop :=
  forall s, exists n,
    fst (f (Nat.iter n (fun x => snd (f x)) s)) = target.

(** The receiver runs empty once its words have been read. *)
Definition rx_drains : Prop :=
  forall s, exists n,
    fst (spi_is_rx_nonempty
           (Nat.iter n (fun x => snd (spi_rx_reg (snd (spi_is_rx_nonempty x))))
                     s)) = false.

(** Assumptions on the device: the receive flag rises after finitely many
    polls; [spi_tx] reports at most the bytes offered. *)
Definition rx_arrives : Prop :=
  forall s, exists n,
    fst (spi_is_rx_nonempty
           (Nat.iter n (fun x => snd (spi_is_rx_nonempty x)) s)) = true.

Definition tx_honest : Prop :=
  forall buf len s, 0 <= len -> 0 <= fst (spi_tx buf len s) <= len.

(** [spi_tx] takes at least one byte when some are offered. *)
Definition tx_progresses : Prop :=
  forall buf len s, 0 < len -> 0 < fst (spi_tx buf len s).

(** [spi_tx] never takes a byte. *)
Definition tx_stalled : Prop :=
  forall buf len s, fst (spi_tx buf len s) = 0.

End Port.

(** *** Enabling the device

    [begin], [beginSlave], [enable_device] and [configure_gpios] call into
    [spi.h], [timer.h] and [gpio.h] and produce no value: they are modelled
    by the calls they make, in order. *)

(** [struct spi_pins] *)
Record spi_pins : Type := mk_spi_pins {
  nss : Z;
  sck : Z;
  miso : Z;
  mosi : Z
}.

(** The members of [stm32_pin_info] the code reads; [timer_device] is 0
    for a null pointer. *)
Record stm32_pin_info : Type := mk_pin_info {
  gpio_device : Z;
  timer_device : Z;
  gpio_bit : Z;
  timer_channel : Z
}.

(** The constants, tables and helpers declared in headers that are not
    part of the sources at hand. *)
Record wirish_env : Type := mk_env {
  MAX_SPI_FREQS : N;
  SPI_140_625KHZ : N;
  SPI_1_125MHZ : N;
  rcc_dev_clk : Z -> Spi.rcc_clk_domain;
  MSBFIRST : Z;
  SPI_FRAME_MSB : Z;
  SPI_FRAME_LSB : Z;
  SPI_DFF_8_BIT : Z;
  SPI_SW_SLAVE : Z;
  SPI_SOFT_SS : Z;
  RCC_SPI1 : Z;
  RCC_SPI2 : Z;
  RCC_SPI3 : Z;
  STM32_HIGH_DENSITY : bool;
  BOARD_SPI1 : spi_pins;
  BOARD_SPI2 : spi_pins;
  BOARD_SPI3 : spi_pins;
  PIN_MAP : Z -> stm32_pin_info
}.

Inductive spi_call : Type :=
| CallAssert
| CallSpiInit
| CallTimerDisable (timer_dev channel : Z)
| CallMasterGpioCfg (nss_dev sck_dev nss_bit sck_bit miso_bit mosi_bit : Z)
| CallSlaveGpioCfg (nss_dev sck_dev nss_bit sck_bit miso_bit mosi_bit : Z)
| CallMasterEnable (baud : Spi.baud_result) (mode flags : Z)
| CallSlaveEnable (mode flags : Z).

Definition is_enable_call (c : spi_call) : bool :=
  match c with
  | CallMasterEnable _ _ _ | CallSlaveEnable _ _ => true
  | _ => false
  end.

Definition is_assert_call (c : spi_call) : bool :=
  match c with CallAssert => true | _ => false end.

(** [disable_pwm] *)
Definition disable_pwm (i : stm32_pin_info) : list spi_call :=
  if timer_device i =? 0 then []
  else [CallTimerDisable (timer_device i) (timer_channel i)].

(** The [switch (dev->clk_id)] of [configure_gpios]; [None] is the
    [default] case. *)
Definition select_pins (env : wirish_env) (dev : Spi.spi_dev)
  : option spi_pins :=
  if Spi.clk_id dev =? RCC_SPI1 env then Some (BOARD_SPI1 env)
  else if Spi.clk_id dev =? RCC_SPI2 env then Some (BOARD_SPI2 env)
  else if STM32_HIGH_DENSITY env && (Spi.clk_id dev =? RCC_SPI3 env)
       then Some (BOARD_SPI3 env)
  else None.

(** [configure_gpios] *)
Definition configure_gpios (env : wirish_env) (dev : Spi.spi_dev)
    (as_master : bool) : list spi_call :=
  match select_pins env dev with
  | None => [CallAssert]
  | Some pins =>
      let nssi := PIN_MAP env (nss pins) in
      let scki := PIN_MAP env (sck pins) in
      let misoi := PIN_MAP env (miso pins) in
      let mosii := PIN_MAP env (mosi pins) in
      disable_pwm nssi ++ disable_pwm scki ++ disable_pwm misoi
        ++ disable_pwm mosii
        ++ [if as_master
            then CallMasterGpioCfg (gpio_device nssi) (gpio_device scki)
                   (gpio_bit nssi) (gpio_bit scki) (gpio_bit misoi)
                   (gpio_bit mosii)
            else CallSlaveGpioCfg (gpio_device nssi) (gpio_device scki)
                   (gpio_bit nssi) (gpio_bit scki) (gpio_bit misoi)
                   (gpio_bit mosii)]
  end.

(** The baud rate [enable_device] computes, with the call of the
    assertion branch of [determine_baud_rate]. *)
Definition baud_for (env : wirish_env) (dev : Spi.spi_dev) (freq : N)
  : Spi.baud_result * list spi_call :=
  let baud := Spi.determine_baud_rate (MAX_SPI_FREQS env) (SPI_140_625KHZ env)
                                      (rcc_dev_clk env) dev freq in
  (baud, match baud with Spi.BaudAssert => [CallAssert] | _ => [] end).

(** [enable_device] *)
Definition enable_device (env : wirish_env) (dev : Spi.spi_dev)
    (as_master : bool) (freq : N) (endianness mode : Z) : list spi_call :=
  if (MAX_SPI_FREQS env <=? freq)%N then [CallAssert]
  else
    let '(baud, asserted) := baud_for env dev freq in
    let cfg_flags :=
      Z.lor (Z.lor (Z.lor endianness (SPI_DFF_8_BIT env)) (SPI_SW_SLAVE env))
            (if as_master then SPI_SOFT_SS env else 0) in
    asserted ++ [CallSpiInit] ++ configure_gpios env dev as_master
      ++ [if as_master then CallMasterEnable baud mode cfg_flags
          else CallSlaveEnable mode cfg_flags].

(** [HardwareSPI::begin(SPIFrequency, uint32, uint32)] *)
Definition begin (env : wirish_env) (dev : Spi.spi_dev) (frequency : N)
    (bitOrder mode : Z) : list spi_call :=
  if 4 <=? mode then [CallAssert]
  else
    let e := if bitOrder =? MSBFIRST env then SPI_FRAME_MSB env
             else SPI_FRAME_LSB env in
    enable_device env dev true frequency e mode.

(** [HardwareSPI::begin(void)] *)
Definition begin_default (env : wirish_env) (dev : Spi.spi_dev)
  : list spi_call :=
  begin env dev (SPI_1_125MHZ env) (MSBFIRST env) 0.

(** [HardwareSPI::beginSlave(uint32, uint32)] *)
Definition beginSlave (env : wirish_env) (dev : Spi.spi_dev)
    (bitOrder mode : Z) : list spi_call :=
  if 4 <=? mode then [CallAssert]
  else
    let e := if bitOrder =? MSBFIRST env then SPI_FRAME_MSB env
             else SPI_FRAME_LSB env in
    enable_device env dev false 0%N e mode.

(** [HardwareSPI::beginSlave(void)] *)
Definition beginSlave_default (env : wirish_env) (dev : Spi.spi_dev)
  : list spi_call :=
  beginSlave env dev (MSBFIRST env) 0.

(** The divisor an enumerator of [spi_baud_rate] names. *)
Definition baud_divisor (b : Spi.spi_baud_rate) : Z :=
  match b with
  | Spi.SPI_BAUD_PCLK_DIV_2 => 2
  | Spi.SPI_BAUD_PCLK_DIV_4 => 4
  | Spi.SPI_BAUD_PCLK_DIV_8 => 8
  | Spi.SPI_BAUD_PCLK_DIV_16 => 16
  | Spi.SPI_BAUD_PCLK_DIV_32 => 32
  | Spi.SPI_BAUD_PCLK_DIV_64 => 64
  | Spi.SPI_BAUD_PCLK_DIV_128 => 128
  | Spi.SPI_BAUD_PCLK_DIV_256 => 256
  end.

(** The bus clocks the note above [determine_baud_rate] assumes: APB2 at
    72 MHz, APB1 at 36 MHz. *)
Definition pclk_hz (c : Spi.rcc_clk_domain) : Z :=
  match c with
  | Spi.RCC_APB2 => 72000000
  | _ => 36000000
  end.

(** A LeafLabs-style board with SPI1 on APB2 and SPI2 on APB1. *)
Definition maple_env : wirish_env :=
  mk_env 8 7 4 Spi.rcc_dev_clk_maple
         1 0 0x80 0 0x200 0x100
         12 14 15 false
         (mk_spi_pins 10 13 12 11) (mk_spi_pins 31 32 33 34)
         (mk_spi_pins 0 0 0 0)
         (fun p => mk_pin_info (if p <? 16 then 1 else 2)
                               (if p =? 11 then 3 else 0) (p mod 16) 1).

(** A device for trying the methods out: the world is the queue of words
    waiting in the receiver and the list of bytes sent so far. *)
Definition sim_world : Type := (list Z * list Z)%type.

Definition sim_is_enabled (s : sim_world) : bool * sim_world := (true, s).
Definition sim_is_rx_nonempty (s : sim_world) : bool * sim_world :=
  (match fst s with [] => false | _ :: _ => true end, s).
Definition sim_rx_reg (s : sim_world) : Z * sim_world :=
  (hd 0 (fst s), (tl (fst s), snd s)).
Definition sim_is_tx_empty (s : sim_world) : bool * sim_world := (true, s).
Definition sim_is_busy (s : sim_world) : bool * sim_world := (false, s).
Definition sim_peripheral_disable (s : sim_world) : sim_world := s.
(** Sends one byte per call and receives its echo plus 0x100. *)
Definition sim_tx (buf : list Z) (len : Z) (s : sim_world) : Z * sim_world :=
  if len <=? 0 then (0, s)
  else (1, (fst s ++ [hd 0 buf + 0x100], snd s ++ [hd 0 buf])).

(** A transmitter that takes nothing. *)
Definition stalled_tx (buf : list Z) (len : Z) (s : sim_world)
  : Z * sim_world := (0, s).

(** A device whose receiver always holds the word 0x1A5. *)
Definition ready_is_rx_nonempty (s : unit) : bool * unit := (true, s).
Definition ready_rx_reg (s : unit) : Z * unit := (0x1A5, s).

End HardwareSPI.

Import I2c.

(** ** The register routines as one family *)

(** A peripheral that never completes a pending condition. *)
Definition hw_stuck (hw : i2c_reg_map -> i2c_reg_map) : Prop :=
  forall m, cond_pending (CR1 m) = true -> cond_pending (CR1 (hw m)) = true.

(** Every entry of the log is a read or a write of register [r]. *)
Definition accesses_only (r : reg_name) (log : list io_event) : Prop :=
  forall e, In e log ->
    match e with
    | IoRead r' _ | IoWrite r' _ => r' = r
    | StateWrite _ => False
    end.

(** The inline routines of [i2c.h] other than [i2c_disable]. *)
Inductive reg_routine : Type :=
| RPeripheralEnable
| RPeripheralDisable
| RWrite (byte : Z)
| RSetInputClk (freq : Z)
| RSetClkControl (val : Z)
| RSetTrise (trise : Z)
| RStartCondition
| RStopCondition
| REnableIrq (irqs : Z)
| RDisableIrq (irqs : Z)
| REnableAck
| RDisableAck.

Definition run_routine (hw : i2c_reg_map -> i2c_reg_map) (fuel : nat)
    (r : reg_routine) : io unit :=
  match r with
  | RPeripheralEnable => i2c_peripheral_enable hw
  | RPeripheralDisable => i2c_peripheral_disable hw
  | RWrite byte => i2c_write byte
  | RSetInputClk freq => i2c_set_input_clk hw freq
  | RSetClkControl val => i2c_set_clk_control hw val
  | RSetTrise trise => i2c_set_trise trise
  | RStartCondition => i2c_start_condition hw fuel
  | RStopCondition => i2c_stop_condition hw fuel
  | REnableIrq irqs => i2c_enable_irq hw irqs
  | RDisableIrq irqs => i2c_disable_irq hw irqs
  | REnableAck => i2c_enable_ack hw
  | RDisableAck => i2c_disable_ack hw
  end.

(** The register a routine works on. *)
Definition routine_reg (r : reg_routine) : reg_name :=
  match r with
  | RPeripheralEnable | RPeripheralDisable | RStartCondition | RStopCondition
  | REnableAck | RDisableAck => R_CR1
  | RWrite _ => R_DR
  | RSetInputClk _ | REnableIrq _ | RDisableIrq _ => R_CR2
  | RSetClkControl _ => R_CCR
  | RSetTrise _ => R_TRISE
  end.

Fixpoint run_routines (hw : i2c_reg_map -> i2c_reg_map) (fuel : nat)
    (rs : list reg_routine) : io unit :=
  match rs with
  | [] => ret tt
  | r :: rest => run_routine hw fuel r ;;; run_routines hw fuel rest
  end.

(** A transmission of one byte, from enabling the peripheral to turning
    it off. *)
Definition routines_send_byte : list reg_routine :=
  [RPeripheralEnable; RSetInputClk 36; RSetClkControl 180; RSetTrise 37;
   REnableIrq I2C_IRQ_EVENT; RStartCondition; RWrite 0xA0; REnableAck;
   RStopCondition; RDisableIrq I2C_IRQ_EVENT; RPeripheralDisable].

(** How many writes a log holds. *)
Definition count_writes (log : list io_event) : nat :=
  List.length
    (filter (fun e => match e with IoWrite _ _ => true | _ => false end) log).

(** * Properties *)

(** ** Bits *)

Lemma ones32_bits (i : Z) :
  Z.testbit ones32 i = (0 <=? i) && (i <? 32).
Proof.
  change ones32 with (Z.ones 32).
  apply Z.testbit_ones. lia.
Qed.

Lemma not32_bits (x i : Z) :
  Z.testbit (not32 x) i = negb (Z.testbit x i) && ((0 <=? i) && (i <? 32)).
Proof.
  unfold not32. rewrite Z.land_spec, ones32_bits.
  destruct (Z.leb_spec 0 i) as [Hi | Hi].
  - rewrite Z.lnot_spec by exact Hi. reflexivity.
  - rewrite !andb_false_r. reflexivity.
Qed.

Lemma land_not32_self (x : Z) : Z.land x (not32 x) = 0.
Proof.
  apply Z.bits_inj'. intros i _.
  rewrite Z.land_spec, not32_bits, Z.bits_0.
  destruct (Z.testbit x i); reflexivity.
Qed.

Lemma bits_above (p n i : Z) :
  0 <= p -> 0 <= n < 2 ^ p -> p <= i -> Z.testbit n i = false.
Proof.
  intros Hp Hn Hi.
  rewrite <- (Z.mod_small n (2 ^ p)) by exact Hn.
  apply Z.mod_pow2_bits_high. lia.
Qed.

Lemma bit_bits (n i : Z) : 0 <= n -> Z.testbit (bit n) i = (i =? n).
Proof.
  intros Hn. unfold bit. rewrite Z.shiftl_1_l.
  destruct (Z.eqb_spec i n) as [-> | Hne].
  - apply Z.pow2_bits_true. exact Hn.
  - apply Z.pow2_bits_false. congruence.
Qed.

(** A 32-bit value is unchanged by masking with [~m] when it has no bit of
    [m]. *)
Lemma land_not32_disjoint (x m : Z) :
  0 <= x < 2 ^ 32 -> Z.land x m = 0 -> Z.land x (not32 m) = x.
Proof.
  intros Hx Hd.
  apply Z.bits_inj'. intros i Hi.
  rewrite Z.land_spec, not32_bits.
  assert (Hb : Z.testbit (Z.land x m) i = false) by (rewrite Hd; apply Z.bits_0).
  rewrite Z.land_spec in Hb.
  destruct (Z.ltb_spec i 32) as [Hlt | Hge].
  - destruct (Z.leb_spec 0 i); [| lia].
    destruct (Z.testbit x i), (Z.testbit m i); simpl in *; congruence.
  - rewrite (bits_above 32 x i) by lia. reflexivity.
Qed.

Lemma field_mask_bits (i : Z) :
  Z.testbit 0xFFF i = (0 <=? i) && (i <? 12).
Proof.
  change 0xFFF with (Z.ones 12).
  apply Z.testbit_ones. lia.
Qed.

(** The read-modify-write of a 12-bit field: above the field the old bits
    stay, inside it the new value is stored. *)
Lemma field12_high (c val i : Z) :
  0 <= val <= 0xFFF -> 12 <= i ->
  Z.testbit (Z.lor (Z.land c (not32 I2C_CCR_CCR)) val) i
  = Z.testbit c i && (i <? 32).
Proof.
  intros Hv Hi.
  rewrite Z.lor_spec, Z.land_spec, not32_bits.
  unfold I2C_CCR_CCR. rewrite field_mask_bits.
  rewrite (bits_above 12 val i) by lia.
  destruct (Z.leb_spec 0 i); [| lia].
  destruct (Z.ltb_spec i 12); [lia |].
  rewrite orb_false_r. reflexivity.
Qed.

Lemma field12_low (c val i : Z) :
  0 <= i < 12 ->
  Z.testbit (Z.lor (Z.land c (not32 I2C_CCR_CCR)) val) i = Z.testbit val i.
Proof.
  intros Hi.
  rewrite Z.lor_spec, Z.land_spec, not32_bits.
  unfold I2C_CCR_CCR. rewrite field_mask_bits.
  destruct (Z.leb_spec 0 i); [| lia].
  destruct (Z.ltb_spec i 12); [| lia].
  simpl. rewrite andb_false_r. reflexivity.
Qed.

(** ** The register interface *)

Section RegisterFacts.

Variable hw : i2c_reg_map -> i2c_reg_map.

(** C1 (as the code has it). [i2c_disable] makes one read-modify-write of
    CR1 that clears the peripheral-enable bit and then assigns Disabled to
    the state.  It reads neither the data register nor a status register:
    nothing is drained and nothing is waited for; the other registers and
    the other bits of CR1 are whatever the hardware last left there. *)
Theorem i2c_disable_clears_pe (d : i2c_dev) :
  exists d',
    i2c_disable hw d =
      Some (tt, d',
            [IoRead R_CR1 (CR1 (hw (regs d)));
             IoWrite R_CR1 (Z.land (CR1 (hw (regs d))) (not32 I2C_CR1_PE));
             StateWrite I2C_STATE_DISABLED])
    /\ Z.land (CR1 (regs d')) I2C_CR1_PE = 0
    /\ state d' = I2C_STATE_DISABLED
    /\ (forall i, 0 < i < 32 ->
          Z.testbit (CR1 (regs d')) i = Z.testbit (CR1 (hw (regs d))) i)
    /\ (forall r, r <> R_CR1 -> get_reg r (regs d') = get_reg r (hw (regs d))).
Proof.
  eexists. split; [reflexivity |]. simpl.
  repeat split.
  - rewrite <- Z.land_assoc, (Z.land_comm (not32 _)), land_not32_self.
    apply Z.land_0_r.
  - intros i Hi. rewrite Z.land_spec, not32_bits.
    unfold I2C_CR1_PE. rewrite bit_bits by lia.
    destruct (Z.eqb_spec i 0); [lia |].
    destruct (Z.leb_spec 0 i); [| lia].
    destruct (Z.ltb_spec i 32); [| lia].
    rewrite !andb_true_r. reflexivity.
  - intros r Hr. destruct r; try reflexivity. congruence.
Qed.

(** [i2c_set_input_clk] assigns [freq] itself to CR2: every bit of the
    previous contents is lost. *)
Lemma i2c_set_input_clk_overwrites (freq : Z) (d : i2c_dev) :
  exists d',
    i2c_set_input_clk hw freq d =
      Some (tt, d', [IoRead R_CR2 (CR2 (hw (regs d))); IoWrite R_CR2 freq])
    /\ CR2 (regs d') = freq.
Proof.
  eexists. split; reflexivity.
Qed.

End RegisterFacts.

(** C2 (at the failing input). With the three interrupts enabled and a
    request for 36 MHz, CR2 ends as 36: ITERREN, ITEVTEN and ITBUFEN, set
    before the call, are all cleared by it. *)
Theorem i2c_set_input_clk_clears_irqs :
  let d := dev_with regs_irqs_on I2C_STATE_IDLE in
  exists d' log,
    i2c_set_input_clk hw_still 36 d = Some (tt, d', log)
    /\ CR2 (regs d) = 0x708
    /\ CR2 (regs d') = 36
    /\ Z.land (CR2 (regs d)) I2C_CR2_ITERREN = I2C_CR2_ITERREN
    /\ Z.land (CR2 (regs d)) I2C_CR2_ITEVTEN = I2C_CR2_ITEVTEN
    /\ Z.land (CR2 (regs d)) I2C_CR2_ITBUFEN = I2C_CR2_ITBUFEN
    /\ Z.land (CR2 (regs d')) I2C_CR2_ITERREN = 0
    /\ Z.land (CR2 (regs d')) I2C_CR2_ITEVTEN = 0
    /\ Z.land (CR2 (regs d')) I2C_CR2_ITBUFEN = 0.
Proof.
  do 2 eexists. split; [reflexivity |].
  vm_compute. repeat split.
Qed.

(** C1 (counterexample). On a device in the middle of a reception, with a
    peripheral that does nothing by itself, [i2c_disable] returns with the
    received byte still in DR and the bus still busy: it did not wait for
    the peripheral to be idle before turning it off. *)
Lemma i2c_disable_does_not_wait :
  ~ (forall d' log,
       i2c_disable hw_still (dev_with regs_inflight I2C_STATE_BUSY)
         = Some (tt, d', log) ->
       drained_and_idle (regs d')).
Proof.
  intros H.
  specialize (H _ _ eq_refl).
  destruct H as [H _]. vm_compute in H. discriminate H.
Qed.

Section ConfigurationRegisters.

Variable hw : i2c_reg_map -> i2c_reg_map.

(** C8. When the hardware leaves CR2 to the software, enabling the
    interrupts [irqs] and then disabling them leaves CR2 at its original
    value with the bits of [irqs] cleared; neither call changes a bit
    outside [irqs]; and when CR2 (a 32-bit value) had no bit of [irqs] at
    the start, the pair restores it exactly. *)
Theorem i2c_irq_enable_then_disable (irqs : Z) (d : i2c_dev)
    (Hkeep : hw_keeps R_CR2 hw) :
  exists d1 l1 d2 l2,
    i2c_enable_irq hw irqs d = Some (tt, d1, l1)
    /\ i2c_disable_irq hw irqs d1 = Some (tt, d2, l2)
    /\ (i2c_enable_irq hw irqs ;;; i2c_disable_irq hw irqs) d
         = Some (tt, d2, l1 ++ l2)
    /\ CR2 (regs d2) = Z.land (CR2 (regs d)) (not32 irqs)
    /\ Z.land (CR2 (regs d1)) (not32 irqs) = Z.land (CR2 (regs d)) (not32 irqs)
    /\ Z.land (CR2 (regs d2)) (not32 irqs) = Z.land (CR2 (regs d1)) (not32 irqs)
    /\ (0 <= CR2 (regs d) < 2 ^ 32 -> Z.land (CR2 (regs d)) irqs = 0 ->
        CR2 (regs d2) = CR2 (regs d)).
Proof.
  pose proof (Hkeep (regs d)) as K1. simpl in K1.
  set (d1 := set_regs (set_regs d (hw (regs d)))
               (set_reg R_CR2 (Z.lor (CR2 (hw (regs d))) irqs) (hw (regs d)))).
  pose proof (Hkeep (regs d1)) as K2. simpl in K2.
  assert (E : Z.land (Z.lor (CR2 (regs d)) irqs) (not32 irqs)
              = Z.land (CR2 (regs d)) (not32 irqs)).
  { rewrite Z.land_lor_distr_l, land_not32_self. apply Z.lor_0_r. }
  exists d1. eexists. eexists. eexists.
  split; [reflexivity |]. split; [reflexivity |]. split; [reflexivity |].
  simpl. rewrite K2, K1.
  repeat split.
  - exact E.
  - exact E.
  - rewrite <- Z.land_assoc, Z.land_diag. reflexivity.
  - intros Hr Hd. rewrite E. apply land_not32_disjoint; assumption.
Qed.

(** C9. When the hardware leaves CCR to the software and [val] fits the
    12-bit field, [i2c_set_clk_control] changes the low 12 bits of CCR
    only: the field becomes [val], every bit outside it keeps its value,
    in particular the fast-mode bit FS and the duty bit DUTY, and no other
    register is written. *)
Theorem i2c_set_clk_control_frame (val : Z) (d : i2c_dev)
    (Hkeep : hw_keeps R_CCR hw) (Hval : 0 <= val <= 0xFFF) :
  exists d' log,
    i2c_set_clk_control hw val d = Some (tt, d', log)
    /\ Z.land (CCR (regs d')) I2C_CCR_CCR = val
    /\ Z.land (CCR (regs d')) (not32 I2C_CCR_CCR)
       = Z.land (CCR (regs d)) (not32 I2C_CCR_CCR)
    /\ Z.land (CCR (regs d')) I2C_CCR_FS = Z.land (CCR (regs d)) I2C_CCR_FS
    /\ Z.land (CCR (regs d')) I2C_CCR_DUTY = Z.land (CCR (regs d)) I2C_CCR_DUTY
    /\ (forall r, r <> R_CCR -> get_reg r (regs d') = get_reg r (hw (regs d))).
Proof.
  pose proof (Hkeep (regs d)) as K. simpl in K.
  do 2 eexists. split; [reflexivity |]. simpl. rewrite K.
  split; [| split; [| split; [| split]]].
  - apply Z.bits_inj'. intros i Hi. rewrite Z.land_spec.
    destruct (Z.ltb_spec i 12) as [Hlt | Hge].
    + rewrite field12_low by lia.
      unfold I2C_CCR_CCR. rewrite field_mask_bits.
      destruct (Z.leb_spec 0 i); [| lia]. destruct (Z.ltb_spec i 12); [| lia].
      apply andb_true_r.
    + unfold I2C_CCR_CCR. rewrite field_mask_bits.
      destruct (Z.ltb_spec i 12); [lia |].
      rewrite (bits_above 12 val i) by lia.
      rewrite andb_false_r. apply andb_false_r.
  - apply Z.bits_inj'. intros i Hi. rewrite !Z.land_spec, not32_bits.
    unfold I2C_CCR_CCR. rewrite field_mask_bits.
    destruct (Z.ltb_spec i 12) as [Hlt | Hge].
    + destruct (Z.leb_spec 0 i); [| lia]. simpl. rewrite !andb_false_r.
      reflexivity.
    + fold I2C_CCR_CCR. rewrite field12_high by lia.
      rewrite andb_false_r. simpl.
      destruct (Z.testbit (CCR (regs d)) i), (0 <=? i), (i <? 32); reflexivity.
  - apply Z.bits_inj'. intros i Hi. rewrite !Z.land_spec.
    unfold I2C_CCR_FS. rewrite bit_bits by lia.
    destruct (Z.eqb_spec i 15) as [-> | Hne]; [| rewrite !andb_false_r; reflexivity].
    rewrite field12_high by lia. change (15 <? 32) with true.
    rewrite !andb_true_r. reflexivity.
  - apply Z.bits_inj'. intros i Hi. rewrite !Z.land_spec.
    unfold I2C_CCR_DUTY. rewrite bit_bits by lia.
    destruct (Z.eqb_spec i 14) as [-> | Hne]; [| rewrite !andb_false_r; reflexivity].
    rewrite field12_high by lia. change (14 <? 32) with true.
    rewrite !andb_true_r. reflexivity.
  - intros r Hr. destruct r; try reflexivity. congruence.
Qed.

End ConfigurationRegisters.

(** ** The busy-waits *)

Lemma cond_pending_false (v : Z) :
  cond_pending v = false <-> Z.land v cr1_cond_mask = 0.
Proof.
  unfold cond_pending. destruct (Z.eqb_spec (Z.land v cr1_cond_mask) 0); simpl.
  - tauto.
  - split; [discriminate | contradiction].
Qed.

(** The peripheral [hw_settle] meets the three assumptions. *)
Lemma hw_settle_completes : hw_completes hw_settle.
Proof.
  intros m. exists O. simpl.
  apply cond_pending_false.
  rewrite <- Z.land_assoc, (Z.land_comm (not32 _)), land_not32_self.
  apply Z.land_0_r.
Qed.

Lemma hw_settle_raises_none : hw_raises_none hw_settle.
Proof.
  intros m _.
  destruct (hw_settle_completes m) as [n H]. simpl in H.
  apply cond_pending_false.
  simpl. rewrite <- Z.land_assoc, (Z.land_comm (not32 _)), land_not32_self.
  apply Z.land_0_r.
Qed.

Lemma hw_settle_keeps (r : reg_name) : r <> R_CR1 -> hw_keeps r hw_settle.
Proof.
  intros Hr m. destruct r; try reflexivity. congruence.
Qed.

Section BusyWait.

Variable hw : i2c_reg_map -> i2c_reg_map.

(** One turn of the loop. *)
Lemma wait_cond_clear_step (f : nat) (d : i2c_dev) :
  wait_cond_clear hw (S f) d =
    if cond_pending (CR1 (hw (regs d)))
    then match wait_cond_clear hw f (set_regs d (hw (regs d))) with
         | None => None
         | Some (v, d', l) => Some (v, d', IoRead R_CR1 (CR1 (hw (regs d))) :: l)
         end
    else Some (CR1 (hw (regs d)), set_regs d (hw (regs d)),
               [IoRead R_CR1 (CR1 (hw (regs d)))]).
Proof.
  simpl. unfold bind, reg_read. simpl.
  destruct (cond_pending (CR1 (hw (regs d)))).
  - destruct (wait_cond_clear hw f _) as [[[v d'] l] |]; reflexivity.
  - reflexivity.
Qed.

(** What a busy-wait that returned has done: polls that found a condition
    pending, then one that found none; only the registers changed. *)
Lemma wait_cond_clear_inv (fuel : nat) :
  forall d v d' log,
    wait_cond_clear hw fuel d = Some (v, d', log) ->
    exists pre,
      log = map (IoRead R_CR1) pre ++ [IoRead R_CR1 v]
      /\ Forall (fun x => cond_pending x = true) pre
      /\ cond_pending v = false
      /\ CR1 (regs d') = v
      /\ d' = set_regs d (regs d').
Proof.
  induction fuel as [| f IH]; intros d v d' log H.
  - discriminate H.
  - rewrite wait_cond_clear_step in H.
    destruct (cond_pending (CR1 (hw (regs d)))) eqn:Hp.
    + destruct (wait_cond_clear hw f _) as [[[v1 d1] l1] |] eqn:Hw;
        [| discriminate H].
      injection H as <- <- <-.
      destruct (IH _ _ _ _ Hw) as (pre & -> & Hall & Hv & Hc & Hd).
      exists (CR1 (hw (regs d)) :: pre).
      split; [reflexivity |].
      split; [constructor; assumption |].
      split; [assumption |].
      split; [assumption |].
      rewrite Hd at 1. reflexivity.
    + injection H as <- <- <-.
      exists [].
      split; [reflexivity |].
      split; [constructor |].
      split; [assumption |].
      split; reflexivity.
Qed.




End BusyWait.

Section Conditions.

Variable hw : i2c_reg_map -> i2c_reg_map.

Lemma i2c_start_condition_unfold (fuel : nat) (d : i2c_dev) :
  i2c_start_condition hw fuel d =
    match wait_cond_clear hw fuel d with
    | None => None
    | Some (_, d0, l0) =>
        Some (tt, after_set hw I2C_CR1_START d0,
              l0 ++ [IoRead R_CR1 (CR1 (hw (regs d0)));
                     IoWrite R_CR1 (Z.lor (CR1 (hw (regs d0))) I2C_CR1_START)])
    end.
Proof.
  unfold i2c_start_condition, bind.
  destruct (wait_cond_clear hw fuel d) as [[[v0 d0] l0] |]; reflexivity.
Qed.

Lemma i2c_stop_condition_unfold (fuel : nat) (d : i2c_dev) :
  i2c_stop_condition hw fuel d =
    match wait_cond_clear hw fuel d with
    | None => None
    | Some (_, d0, l0) =>
        match wait_cond_clear hw fuel (after_set hw I2C_CR1_STOP d0) with
        | None => None
        | Some (_, d1, l1) =>
            Some (tt, d1,
                  l0 ++ [IoRead R_CR1 (CR1 (hw (regs d0)));
                         IoWrite R_CR1 (Z.lor (CR1 (hw (regs d0))) I2C_CR1_STOP)]
                     ++ l1)
        end
    end.
Proof.
  unfold i2c_stop_condition, bind.
  destruct (wait_cond_clear hw fuel d) as [[[v0 d0] l0] |]; [| reflexivity].
  unfold after_set. simpl.
  destruct (wait_cond_clear hw fuel _) as [[[v1 d1] l1] |]; [| reflexivity].
  simpl. rewrite app_nil_r. reflexivity.
Qed.




End Conditions.

(** ** Runs on concrete devices *)

Example i2c_stop_condition_run :
  i2c_stop_condition hw_settle 1 (dev_with regs_stop_pending I2C_STATE_IDLE)
  = Some (tt, dev_with (mk_reg_map 1 0 0 0 0 0 0 0 0) I2C_STATE_IDLE,
          [IoRead R_CR1 1; IoRead R_CR1 1; IoWrite R_CR1 0x201; IoRead R_CR1 1]).
Proof. reflexivity. Qed.

Example i2c_start_condition_run :
  i2c_start_condition hw_settle 1 (dev_with regs_stop_pending I2C_STATE_IDLE)
  = Some (tt, dev_with (mk_reg_map 0x101 0 0 0 0 0 0 0 0) I2C_STATE_IDLE,
          [IoRead R_CR1 1; IoRead R_CR1 1; IoWrite R_CR1 0x101]).
Proof. reflexivity. Qed.

(** A peripheral that never completes keeps the busy-wait spinning. *)
Example i2c_start_condition_spins :
  i2c_start_condition hw_still 1000 (dev_with regs_stop_pending I2C_STATE_IDLE)
  = None.
Proof. vm_compute. reflexivity. Qed.

Example i2c_irq_run :
  (i2c_enable_irq hw_still I2C_IRQ_EVENT ;;; i2c_disable_irq hw_still I2C_IRQ_EVENT)
    (dev_with regs_reset I2C_STATE_IDLE)
  = Some (tt, dev_with regs_reset I2C_STATE_IDLE,
          [IoRead R_CR2 0; IoWrite R_CR2 0x200; IoRead R_CR2 0x200;
           IoWrite R_CR2 0]).
Proof. reflexivity. Qed.

Example i2c_set_clk_control_run :
  i2c_set_clk_control hw_still 180 (dev_with regs_irqs_on I2C_STATE_IDLE)
  = Some (tt,
          dev_with (mk_reg_map 1 0x708 0 0 0 0 0 0x80B4 0) I2C_STATE_IDLE,
          [IoRead R_CCR 0x801E; IoWrite R_CCR 0x80B4]).
Proof. reflexivity. Qed.

(** ** Witnesses *)



Lemma i2c_irq_enable_then_disable_witness :
  hw_keeps R_CR2 hw_settle
  /\ exists d1 l1 d2 l2,
       i2c_enable_irq hw_settle I2C_IRQ_BUFFER
         (dev_with regs_reset I2C_STATE_IDLE) = Some (tt, d1, l1)
       /\ i2c_disable_irq hw_settle I2C_IRQ_BUFFER d1 = Some (tt, d2, l2)
       /\ CR2 (regs d2) = CR2 (regs (dev_with regs_reset I2C_STATE_IDLE)).
Proof.
  assert (K : hw_keeps R_CR2 hw_settle) by (intros m; reflexivity).
  split; [exact K |].
  destruct (i2c_irq_enable_then_disable hw_settle I2C_IRQ_BUFFER
              (dev_with regs_reset I2C_STATE_IDLE) K)
    as (d1 & l1 & d2 & l2 & H1 & H2 & _ & _ & _ & _ & Hrt).
  exists d1, l1, d2, l2. split; [exact H1 |]. split; [exact H2 |].
  apply Hrt; [simpl; lia | reflexivity].
Defined.

Lemma i2c_set_clk_control_frame_witness :
  hw_keeps R_CCR hw_settle /\ 0 <= 180 <= 0xFFF
  /\ exists d' log,
       i2c_set_clk_control hw_settle 180
         (dev_with regs_irqs_on I2C_STATE_IDLE) = Some (tt, d', log)
       /\ Z.land (CCR (regs d')) I2C_CCR_CCR = 180
       /\ Z.land (CCR (regs d')) I2C_CCR_FS = I2C_CCR_FS.
Proof.
  assert (K : hw_keeps R_CCR hw_settle) by (intros m; reflexivity).
  assert (V : 0 <= 180 <= 0xFFF) by lia.
  split; [exact K |]. split; [exact V |].
  destruct (i2c_set_clk_control_frame hw_settle 180
              (dev_with regs_irqs_on I2C_STATE_IDLE) K V)
    as (d' & log & Hrun & Hf & _ & Hfs & _).
  exists d', log. split; [exact Hrun |]. split; [exact Hf |].
  rewrite Hfs. reflexivity.
Defined.

(** ** The state machine of the public operations *)

Lemma state_writes_app (l1 l2 : list io_event) :
  state_writes (l1 ++ l2) = state_writes l1 ++ state_writes l2.
Proof.
  induction l1 as [| e l1 IH]; [reflexivity |].
  destruct e; simpl; rewrite IH; reflexivity.
Qed.

Lemma last_cons_default {A : Type} (l : list A) :
  forall (x d1 d2 : A), last (x :: l) d1 = last (x :: l) d2.
Proof.
  induction l as [| y l IH]; intros x d1 d2; [reflexivity |].
  change (last (y :: l) d1 = last (y :: l) d2). apply IH.
Qed.

Lemma last_app_cons {A : Type} (p q : list A) (s : A) :
  last (p ++ q) s = last q (last p s).
Proof.
  revert s. induction p as [| a p IH]; intros s; [reflexivity |].
  destruct p as [| b p].
  - simpl app. destruct q as [| c q]; [reflexivity |].
    change (last (c :: q) s = last (c :: q) a). apply last_cons_default.
  - change (last ((b :: p) ++ q) s = last q (last (b :: p) s)). apply IH.
Qed.

Lemma path_ok_app (allowed : i2c_state -> i2c_state -> bool) (p q : list i2c_state) :
  forall s,
    path_ok allowed s (p ++ q)
    = path_ok allowed s p && path_ok allowed (last p s) q.
Proof.
  induction p as [| a p IH]; intros s; [reflexivity |].
  simpl path_ok. rewrite IH, andb_assoc.
  destruct p as [| b p]; [reflexivity |].
  rewrite (last_cons_default p b a s). reflexivity.
Qed.

(** The transitions one public operation makes: each change of the state
    it makes is a listed transition, or a transition to Disabled when the
    operation is the disable; an operation that returns leaves the device
    in the last state it assigned, which is not Busy. *)
Lemma op_state_writes_ok (ok : Z) (hw : i2c_reg_map -> i2c_reg_map)
    (op : public_op) (d : i2c_dev) :
  state d <> I2C_STATE_BUSY ->
  path_ok listed_or_disable (state d) (fst (op_state_writes ok hw op d)) = true
  /\ (is_disable op = false ->
      path_ok listed_transition (state d)
              (fst (op_state_writes ok hw op d)) = true)
  /\ match snd (op_state_writes ok hw op d) with
     | Some d' =>
         state d' = last (fst (op_state_writes ok hw op d)) (state d)
         /\ state d' <> I2C_STATE_BUSY
     | None => True
     end.
Proof.
  intros Hb. unfold op_state_writes.
  destruct op as [| fl | bus msgs timeout | |]; cbn [run_op].
  - cbn. destruct (state d); repeat split; try discriminate; congruence.
  - unfold i2c_master_enable, bind.
    destruct (negb (Z.land fl I2C_BUS_RESET =? 0)); cbn;
      destruct (state d); repeat split; try discriminate; congruence.
  - unfold bind, i2c_master_xfer.
    destruct (state d) eqn:Hs; cbn [xfer_allowed]; try congruence;
      try (cbn; rewrite ?Hs; repeat split; discriminate);
      (destruct (xfer_queue bus timeout true _ 0) as [[[o ms] evs] |];
       [ destruct o; unfold xfer_begin, xfer_finish, bind; rewrite Hs; cbn;
         repeat split; discriminate
       | unfold xfer_begin, bind; rewrite Hs; cbn; repeat split ]).
  - cbn. destruct (state d); repeat split; try discriminate; congruence.
  - cbn. destruct (state d); repeat split; try discriminate; congruence.
Qed.

Lemma op_state_writes_run (ok : Z) (hw : i2c_reg_map -> i2c_reg_map)
    (op : public_op) (d d' : i2c_dev) (log : list io_event) :
  run_op ok hw op d = Some (tt, d', log) ->
  op_state_writes ok hw op d = (state_writes log, Some d').
Proof.
  intros H. unfold op_state_writes. rewrite H. reflexivity.
Qed.

(** C5 (as the code has it). Over every sequence of public operations,
    started on a device that is not Busy, each change of the state, up to
    the end of the sequence or to a transfer that blocks, is one of the
    listed transitions or, made by the disable operation, a transition
    from whatever state to Disabled; sequences without the disable
    operation make listed transitions only.  When the sequence returns,
    the changes are those its log shows and the device is left in the last
    state assigned, not Busy. *)
Theorem public_ops_transitions (ok : Z) (hw : i2c_reg_map -> i2c_reg_map)
    (ops : list public_op) :
  forall d : i2c_dev,
    state d <> I2C_STATE_BUSY ->
    path_ok listed_or_disable (state d) (ops_state_writes ok hw ops d) = true
    /\ (forallb (fun op => negb (is_disable op)) ops = true ->
        path_ok listed_transition (state d) (ops_state_writes ok hw ops d)
        = true)
    /\ (forall d' log,
          run_ops ok hw ops d = Some (tt, d', log) ->
          ops_state_writes ok hw ops d = state_writes log
          /\ state d' = last (state_writes log) (state d)
          /\ state d' <> I2C_STATE_BUSY).
Proof.
  induction ops as [| op ops IH]; intros d Hb.
  - split; [reflexivity |]. split; [reflexivity |].
    intros d' log H. injection H as <- <-. auto.
  - destruct (op_state_writes_ok ok hw op d Hb) as (Hp & Hq & Hr).
    cbn [ops_state_writes].
    destruct (op_state_writes ok hw op d) as [w [d1 |]] eqn:Eop;
      cbn [fst snd] in Hp, Hq, Hr.
    + destruct Hr as [Hlast Hb1].
      destruct (IH d1 Hb1) as (Hp2 & Hq2 & Hrun2).
      rewrite !path_ok_app, <- Hlast.
      split; [rewrite Hp, Hp2; reflexivity |].
      split.
      * cbn [forallb]. intros Hall.
        apply andb_true_iff in Hall. destruct Hall as [Hop Hops].
        rewrite Hq by (destruct (is_disable op); [discriminate Hop | reflexivity]).
        rewrite Hq2 by exact Hops. reflexivity.
      * intros d' log H. cbn [run_ops] in H. unfold bind in H.
        destruct (run_op ok hw op d) as [[[[] dx] l1] |] eqn:Hop;
          [| discriminate H].
        rewrite (op_state_writes_run _ _ _ _ _ _ Hop) in Eop.
        injection Eop as <- <-.
        destruct (run_ops ok hw ops dx) as [[[[] d2] l2] |] eqn:Hrest;
          [| discriminate H].
        injection H as <- <-.
        destruct (Hrun2 _ _ eq_refl) as (Hw2 & Hl2 & Hb2).
        rewrite state_writes_app, last_app_cons, <- Hlast, Hw2.
        split; [reflexivity |]. split; assumption.
    + split; [exact Hp |].
      split.
      * cbn [forallb]. intros Hall.
        apply andb_true_iff in Hall. destruct Hall as [Hop _].
        apply Hq. destruct (is_disable op); [discriminate Hop | reflexivity].
      * intros d' log H. cbn [run_ops] in H. unfold bind in H.
        destruct (run_op ok hw op d) as [[[[] dx] l1] |] eqn:Hop;
          [| discriminate H].
        rewrite (op_state_writes_run _ _ _ _ _ _ Hop) in Eop.
        discriminate Eop.
Qed.

(** C5 (counterexample). [i2c_disable] on an Idle device takes the state
    from Idle to Disabled, which is not one of the listed transitions. *)
Lemma i2c_disable_leaves_the_list :
  ~ (forall d' log,
       i2c_disable hw_still (dev_with regs_reset I2C_STATE_IDLE)
         = Some (tt, d', log) ->
       path_ok listed_transition
               (state (dev_with regs_reset I2C_STATE_IDLE))
               (state_writes log) = true).
Proof.
  intros H.
  specialize (H _ _ eq_refl).
  vm_compute in H. discriminate H.
Qed.

Example run_ops_lifecycle :
  exists d' log,
    run_ops 0 hw_still
      [OpMasterEnable I2C_FAST_MODE;
       OpMasterXfer (bus_fault_free (fun _ => 0x42))
                    [msg_write2 0x50 1 2; msg_read3 0x50] 0;
       OpMasterXfer (fun n => if (n =? 3)%nat then BusFault I2C_SR1_AF
                              else BusReady 0)
                    [msg_write2 0x50 1 2] 10;
       OpBusReset;
       OpInit;
       OpDisable;
       OpMasterXfer (bus_fault_free (fun _ => 0)) [msg_write2 0x50 1 2] 10]
      (dev_with regs_reset I2C_STATE_DISABLED) = Some (tt, d', log)
    /\ state_writes log =
         [I2C_STATE_IDLE;
          I2C_STATE_BUSY; I2C_STATE_XFER_DONE;
          I2C_STATE_IDLE; I2C_STATE_BUSY; I2C_STATE_ERROR;
          I2C_STATE_IDLE;
          I2C_STATE_DISABLED]
    /\ state d' = I2C_STATE_DISABLED.
Proof.
  do 2 eexists. split; [reflexivity |]. split; reflexivity.
Qed.

(** A transfer that blocks: the device has become Busy and stays so. *)
Example ops_state_writes_blocked :
  run_ops 0 hw_still [OpInit; OpMasterXfer (fun _ => BusStall) [msg_read3 0x50] 0;
                      OpDisable]
          (dev_with regs_reset I2C_STATE_DISABLED) = None
  /\ ops_state_writes 0 hw_still
       [OpInit; OpMasterXfer (fun _ => BusStall) [msg_read3 0x50] 0; OpDisable]
       (dev_with regs_reset I2C_STATE_DISABLED)
     = [I2C_STATE_IDLE; I2C_STATE_BUSY].
Proof. split; reflexivity. Qed.

Lemma public_ops_transitions_witness :
  state (dev_with regs_reset I2C_STATE_DISABLED) <> I2C_STATE_BUSY
  /\ path_ok listed_or_disable I2C_STATE_DISABLED
       (ops_state_writes 0 hw_still
          [OpInit; OpDisable;
           OpMasterXfer (bus_fault_free (fun _ => 0)) [msg_read3 0x50] 10;
           OpInit; OpMasterXfer (fun _ => BusStall) [msg_read3 0x50] 0]
          (dev_with regs_reset I2C_STATE_DISABLED)) = true.
Proof.
  assert (Hb : state (dev_with regs_reset I2C_STATE_DISABLED) <> I2C_STATE_BUSY)
    by discriminate.
  split; [exact Hb |].
  exact (proj1 (public_ops_transitions 0 hw_still _
                  (dev_with regs_reset I2C_STATE_DISABLED) Hb)).
Defined.

(** ** The status of a transaction *)

Lemma first_trouble_app (bus : nat -> bus_resp) (a b : nat) :
  forall n,
    first_trouble bus n (a + b)
    = match first_trouble bus n a with
      | Some r => Some r
      | None => first_trouble bus (n + a) b
      end.
Proof.
  induction a as [| a IH]; intros n.
  - cbn. rewrite Nat.add_0_r. reflexivity.
  - cbn. destruct (bus n); try reflexivity.
    rewrite IH, Nat.add_succ_r. reflexivity.
Qed.

Lemma first_trouble_not_ready (bus : nat -> bus_resp) (c : nat) :
  forall n v, first_trouble bus n c <> Some (BusReady v).
Proof.
  induction c as [| c IH]; intros n v H; [discriminate H |].
  cbn in H. destruct (bus n); try discriminate H. exact (IH _ _ H).
Qed.

Lemma wait_points_reset (msgs : list i2c_msg) :
  wait_points (map (fun m => set_xferred m 0) msgs) = wait_points msgs.
Proof.
  induction msgs as [| m rest IH]; [reflexivity |].
  cbn. rewrite IH. reflexivity.
Qed.

(** The data phase ends as the first trouble among its wait points says,
    and uses them all when there is none. *)
Lemma xfer_bytes_outcome (bus : nat -> bus_resp) (timeout : Z) (rd : bool)
    (buf : list Z) (remaining : nat) :
  forall n xf,
    match xfer_bytes bus timeout rd buf remaining n xf with
    | Some (o, n', _, _) =>
        trouble_outcome timeout (first_trouble bus n remaining) = Some o
        /\ (o = XferSuccess -> n' = (n + remaining)%nat)
    | None => trouble_outcome timeout (first_trouble bus n remaining) = None
    end.
Proof.
  induction remaining as [| r IH]; intros n xf.
  - cbn. split; [reflexivity |]. intros _. lia.
  - cbn [xfer_bytes first_trouble]. unfold wait_point.
    destruct (bus n) as [v | f |] eqn:Hb.
    + specialize (IH (S n) (xf + 1)).
      destruct (xfer_bytes bus timeout rd buf r (S n) (xf + 1))
        as [[[[o n'] xf'] evs] |].
      * destruct IH as [Ho Hn]. split; [exact Ho |].
        intros E. rewrite (Hn E). lia.
      * exact IH.
    + cbn. split; [reflexivity | discriminate].
    + cbn. destruct (timeout =? 0); [reflexivity |].
      split; [reflexivity | discriminate].
Qed.

(** The queue ends as the first trouble among its wait points says. *)
Lemma xfer_queue_outcome (bus : nat -> bus_resp) (timeout : Z)
    (msgs : list i2c_msg) :
  forall first n,
    match xfer_queue bus timeout first msgs n with
    | Some (o, _, _) =>
        trouble_outcome timeout (first_trouble bus n (wait_points msgs))
        = Some o
    | None =>
        trouble_outcome timeout (first_trouble bus n (wait_points msgs)) = None
    end.
Proof.
  induction msgs as [| m rest IH]; intros first n; [reflexivity |].
  cbn [xfer_queue wait_points Nat.add first_trouble]. unfold wait_point.
  destruct (bus n) as [v0 | f0 |] eqn:Hb0;
    [| reflexivity | cbn; destruct (timeout =? 0); reflexivity].
  destruct (bus (S n)) as [v1 | f1 |] eqn:Hb1;
    [| reflexivity | cbn; destruct (timeout =? 0); reflexivity].
  rewrite first_trouble_app.
  pose proof (xfer_bytes_outcome bus timeout (msg_is_read m) (data m)
                (Z.to_nat (length m)) (S (S n)) 0) as Hx.
  destruct (xfer_bytes bus timeout (msg_is_read m) (data m)
              (Z.to_nat (length m)) (S (S n)) 0)
    as [[[[o n'] xf] evs] |].
  - destruct Hx as [Ho Hn].
    destruct (first_trouble bus (S (S n)) (Z.to_nat (length m)))
      as [[v | f |] |] eqn:Ht.
    + exfalso. exact (first_trouble_not_ready _ _ _ _ Ht).
    + cbn in Ho. injection Ho as <-. reflexivity.
    + cbn in Ho. cbn. destruct (timeout =? 0); [discriminate Ho |].
      injection Ho as <-. reflexivity.
    + cbn in Ho. injection Ho as <-. rewrite (Hn eq_refl).
      destruct rest as [| m2 rest2]; [reflexivity |].
      specialize (IH false (S (S n) + Z.to_nat (length m))%nat).
      destruct (xfer_queue bus timeout false (m2 :: rest2) _)
        as [[[o2 ms2] evs2] |]; exact IH.
  - destruct (first_trouble bus (S (S n)) (Z.to_nat (length m))) as [r |];
      [exact Hx | discriminate Hx].
Qed.

(** C6. [i2c_master_xfer] reports a protocol error as -1 and a timeout as
    -2: two negative codes, different from each other and from the success
    status, from which the caller recovers the kind of outcome.  On a
    device a transaction may be started on, the status is decided by the
    first wait point at which the bus does not make progress: none, and
    the call returns success with the device in XferDone; error-class
    status bits, and it returns -1 with the device in Error and the bits
    in [error_flags]; no answer, and it returns -2 with the device in
    Error when the timeout is not 0, and blocks when it is 0.  With a
    timeout that is not 0 the call returns on every device, bus and
    queue, with one of the three statuses. *)
Theorem i2c_master_xfer_status_codes :
  (I2C_ERROR_PROTOCOL = -1 /\ I2C_ERROR_TIMEOUT = -2
   /\ I2C_ERROR_PROTOCOL < 0 /\ I2C_ERROR_TIMEOUT < 0
   /\ I2C_ERROR_PROTOCOL <> I2C_ERROR_TIMEOUT
   /\ I2C_ERROR_PROTOCOL <> I2C_SUCCESS_STATUS
   /\ I2C_ERROR_TIMEOUT <> I2C_SUCCESS_STATUS)
  /\ (classify_status I2C_SUCCESS_STATUS = KindSuccess
      /\ classify_status I2C_ERROR_PROTOCOL = KindProtocol
      /\ classify_status I2C_ERROR_TIMEOUT = KindTimeout)
  /\ (forall bus msgs timeout d,
        xfer_allowed (state d) = true ->
        match first_trouble bus 0 (wait_points msgs) with
        | None =>
            exists rep d' log,
              i2c_master_xfer I2C_SUCCESS_STATUS bus msgs timeout d
              = Some (rep, d', log)
              /\ rep_status rep = I2C_SUCCESS_STATUS
              /\ state d' = I2C_STATE_XFER_DONE
              /\ error_flags d' = 0
        | Some (BusFault sr1) =>
            exists rep d' log,
              i2c_master_xfer I2C_SUCCESS_STATUS bus msgs timeout d
              = Some (rep, d', log)
              /\ rep_status rep = I2C_ERROR_PROTOCOL
              /\ state d' = I2C_STATE_ERROR
              /\ error_flags d' = sr1
        | Some BusStall =>
            (timeout <> 0 ->
             exists rep d' log,
               i2c_master_xfer I2C_SUCCESS_STATUS bus msgs timeout d
               = Some (rep, d', log)
               /\ rep_status rep = I2C_ERROR_TIMEOUT
               /\ state d' = I2C_STATE_ERROR)
            /\ (timeout = 0 ->
                i2c_master_xfer I2C_SUCCESS_STATUS bus msgs timeout d = None)
        | Some (BusReady _) => False
        end)
  /\ (forall bus msgs timeout d,
        timeout <> 0 ->
        exists rep d' log,
          i2c_master_xfer I2C_SUCCESS_STATUS bus msgs timeout d
          = Some (rep, d', log)
          /\ (rep_status rep = I2C_SUCCESS_STATUS
              \/ rep_status rep = I2C_ERROR_PROTOCOL
              \/ rep_status rep = I2C_ERROR_TIMEOUT)).
Proof.
  assert (Hrun : forall bus msgs timeout d,
            xfer_allowed (state d) = true ->
            match trouble_outcome timeout
                    (first_trouble bus 0 (wait_points msgs)) with
            | Some o =>
                exists rep d' log,
                  i2c_master_xfer I2C_SUCCESS_STATUS bus msgs timeout d
                  = Some (rep, d', log)
                  /\ rep_status rep = xfer_status I2C_SUCCESS_STATUS o
                  /\ state d' = final_state o
                  /\ error_flags d' = captured_flags o
            | None =>
                i2c_master_xfer I2C_SUCCESS_STATUS bus msgs timeout d = None
            end).
  { intros bus msgs timeout d Ha.
    pose proof (xfer_queue_outcome bus timeout
                  (map (fun m => set_xferred m 0) msgs) true 0%nat) as Hq.
    rewrite wait_points_reset in Hq.
    unfold i2c_master_xfer. rewrite Ha.
    destruct (xfer_queue bus timeout true _ 0) as [[[o ms] evs] |];
      rewrite Hq; [| reflexivity].
    unfold xfer_begin, xfer_finish, bind.
    destruct (state d); try discriminate Ha;
      cbn; do 3 eexists; (split; [reflexivity |]); repeat split. }
  split; [unfold I2C_ERROR_PROTOCOL, I2C_ERROR_TIMEOUT, I2C_SUCCESS_STATUS;
          repeat split; lia |].
  split; [repeat split |].
  split.
  - intros bus msgs timeout d Ha.
    specialize (Hrun bus msgs timeout d Ha).
    destruct (first_trouble bus 0 (wait_points msgs)) as [[v | f |] |] eqn:Ht.
    + exact (first_trouble_not_ready _ _ _ _ Ht).
    + cbn in Hrun. exact Hrun.
    + cbn in Hrun. split.
      * intros Hz. destruct (Z.eqb_spec timeout 0) as [E | _]; [contradiction |].
        destruct Hrun as (rep & d' & log & H1 & H2 & H3 & _).
        exists rep, d', log. split; [exact H1 |]. split; assumption.
      * intros ->. exact Hrun.
    + cbn in Hrun. exact Hrun.
  - intros bus msgs timeout d Hz.
    destruct (xfer_allowed (state d)) eqn:Ha.
    + specialize (Hrun bus msgs timeout d Ha).
      assert (Ho : exists o,
                trouble_outcome timeout (first_trouble bus 0 (wait_points msgs))
                = Some o).
      { destruct (first_trouble bus 0 (wait_points msgs)) as [[v | f |] |];
          cbn; try (eexists; reflexivity).
        destruct (Z.eqb_spec timeout 0); [contradiction |].
        eexists; reflexivity. }
      destruct Ho as [o Ho]. rewrite Ho in Hrun.
      destruct Hrun as (rep & d' & log & H1 & H2 & _).
      exists rep, d', log. split; [exact H1 |].
      rewrite H2. destruct o; cbn; auto.
    + unfold i2c_master_xfer. rewrite Ha.
      do 3 eexists. split; [reflexivity |]. right. left. reflexivity.
Qed.

Example i2c_master_xfer_nack :
  exists rep d' log,
    i2c_master_xfer I2C_SUCCESS_STATUS
      (fun n => if (n =? 3)%nat then BusFault I2C_SR1_AF else BusReady 0)
      [msg_write2 0x50 1 2; msg_read3 0x50] 100
      (dev_with regs_reset I2C_STATE_IDLE) = Some (rep, d', log)
    /\ rep_status rep = -1
    /\ map xferred (rep_msgs rep) = [1; 0]
    /\ rep_trace rep = [BusStart; BusAddr 0x50 false; BusData 1]
    /\ error_flags d' = I2C_SR1_AF.
Proof.
  do 3 eexists. split; [reflexivity |]. repeat split.
Qed.

Example i2c_master_xfer_times_out :
  exists rep d' log,
    i2c_master_xfer I2C_SUCCESS_STATUS (fun _ => BusStall)
      [msg_write2 0x50 1 2] 100
      (dev_with regs_reset I2C_STATE_IDLE) = Some (rep, d', log)
    /\ rep_status rep = -2
    /\ state d' = I2C_STATE_ERROR.
Proof.
  do 3 eexists. split; [reflexivity |]. repeat split.
Qed.

(** ** The bus trace of chained messages *)

(** C7. On a bus without faults, the queue of a 2-byte write to [a]
    followed by a 3-byte read from [b] returns success and puts on the bus
    START, the address of [a] for writing, the two bytes of the buffer, a
    repeated START, the address of [b] for reading, the three bytes the
    slave sends, STOP: one START, one repeated START, one STOP, which is
    the last event; both messages are transferred in full. *)
Theorem i2c_master_xfer_write_then_read_trace (ok : Z) (rx : nat -> Z)
    (a b d0 d1 timeout : Z) (d : i2c_dev) :
  exists rep d' log,
    i2c_master_xfer ok (bus_fault_free rx) [msg_write2 a d0 d1; msg_read3 b]
                    timeout (set_state d I2C_STATE_IDLE)
      = Some (rep, d', log)
    /\ rep_trace rep =
         [BusStart; BusAddr a false; BusData d0; BusData d1;
          BusRepStart; BusAddr b true;
          BusData (rx 6%nat); BusData (rx 7%nat); BusData (rx 8%nat);
          BusStop]
    /\ count_events is_stop (rep_trace rep) = 1%nat
    /\ count_events is_rep_start (rep_trace rep) = 1%nat
    /\ count_events is_start (rep_trace rep) = 1%nat
    /\ count_events is_stop (removelast (rep_trace rep)) = 0%nat
    /\ rep_status rep = ok
    /\ map xferred (rep_msgs rep) = [2; 3]
    /\ state d' = I2C_STATE_XFER_DONE.
Proof.
  do 3 eexists. split; [reflexivity |].
  repeat split.
Qed.

(** ** SPI: the index into [baud_rates] *)

Section BaudFacts.

Variable MAX_SPI_FREQS : N.
Variable SPI_140_625KHZ : N.
Variable rcc_dev_clk : Z -> Spi.rcc_clk_domain.

(** C10. With the table of 8 entries and 140.625 KHz as the frequency 7,
    [determine_baud_rate] on a frequency below [MAX_SPI_FREQS] never reads
    past the end of [baud_rates]: on an APB2 device the frequency 7 takes
    the assertion branch, every other frequency reads the entry at
    [freq + 1], which is at most 7; on other devices the entry read is at
    [freq], at most 7. *)
Theorem determine_baud_rate_in_bounds (dev : Spi.spi_dev) (freq : N)
    (Hmax : MAX_SPI_FREQS = 8%N) (Hslow : SPI_140_625KHZ = 7%N)
    (Hfreq : (freq < MAX_SPI_FREQS)%N) :
  match Spi.determine_baud_rate MAX_SPI_FREQS SPI_140_625KHZ rcc_dev_clk
                                dev freq with
  | Spi.BaudAssert =>
      rcc_dev_clk (Spi.clk_id dev) = Spi.RCC_APB2 /\ freq = SPI_140_625KHZ
  | Spi.BaudEntry i b =>
      (i <= 7)%N
      /\ nth_error Spi.baud_rates (N.to_nat i) = Some b
      /\ i = (if Spi.rcc_clk_domain_eqb (rcc_dev_clk (Spi.clk_id dev))
                                        Spi.RCC_APB2
              then freq + 1 else freq)%N
  | Spi.BaudOutOfBounds _ => False
  end.
Proof.
  subst MAX_SPI_FREQS SPI_140_625KHZ.
  assert (Hcases : (freq = 0 \/ freq = 1 \/ freq = 2 \/ freq = 3 \/ freq = 4
                    \/ freq = 5 \/ freq = 6 \/ freq = 7)%N) by lia.
  unfold Spi.determine_baud_rate.
  destruct (rcc_dev_clk (Spi.clk_id dev)) eqn:Hclk;
    repeat (destruct Hcases as [-> | Hcases]); try subst freq;
    simpl; repeat split; lia.
Qed.

End BaudFacts.

Lemma determine_baud_rate_in_bounds_witness :
  (8 = 8)%N /\ (7 = 7)%N /\ (6 < 8)%N
  /\ (7 <= 7)%N
  /\ nth_error Spi.baud_rates (N.to_nat 7) = Some Spi.SPI_BAUD_PCLK_DIV_256.
Proof.
  assert (Hf : (6 < 8)%N) by reflexivity.
  split; [reflexivity |]. split; [reflexivity |]. split; [exact Hf |].
  pose proof (determine_baud_rate_in_bounds 8 7 Spi.rcc_dev_clk_maple
                Spi.spi1 6 eq_refl eq_refl Hf) as H.
  change (Spi.determine_baud_rate 8 7 Spi.rcc_dev_clk_maple Spi.spi1 6)
    with (Spi.BaudEntry 7 Spi.SPI_BAUD_PCLK_DIV_256) in H.
  cbv beta iota in H.
  split; [exact (proj1 H) | exact (proj1 (proj2 H))].
Defined.

Example determine_baud_rate_apb2_slowest :
  Spi.determine_baud_rate 8 7 Spi.rcc_dev_clk_maple Spi.spi1 7 = Spi.BaudAssert.
Proof. reflexivity. Qed.

Example determine_baud_rate_apb1_slowest :
  Spi.determine_baud_rate 8 7 Spi.rcc_dev_clk_maple (Spi.mk_spi_dev 13) 7
  = Spi.BaudEntry 7 Spi.SPI_BAUD_PCLK_DIV_256.
Proof. reflexivity. Qed.

Example enable_device_guard :
  Spi.enable_device_baud 8 7 Spi.rcc_dev_clk_maple Spi.spi1 8 = None.
Proof. reflexivity. Qed.

(** * Further properties of the register interface *)

Lemma not32_lor (a b : Z) :
  Z.land (not32 a) (not32 b) = not32 (Z.lor a b).
Proof.
  apply Z.bits_inj'. intros i _.
  rewrite Z.land_spec, !not32_bits, Z.lor_spec.
  destruct (Z.testbit a i), (Z.testbit b i), ((0 <=? i) && (i <? 32));
    reflexivity.
Qed.

Lemma lor_land_not32 (c m : Z) :
  0 <= c < 2 ^ 32 -> Z.lor (Z.land c (not32 m)) m = Z.lor c m.
Proof.
  intros Hc. apply Z.bits_inj'. intros i Hi.
  rewrite !Z.lor_spec, Z.land_spec, not32_bits.
  destruct (Z.ltb_spec i 32) as [Hlt | Hge].
  - destruct (Z.leb_spec 0 i); [| lia].
    destruct (Z.testbit c i), (Z.testbit m i); reflexivity.
  - rewrite (bits_above 32 c i) by lia. reflexivity.
Qed.

Lemma cond_mask_bits (i : Z) :
  Z.testbit cr1_cond_mask i = (i =? 8) || (i =? 9) || (i =? 12).
Proof.
  unfold cr1_cond_mask, I2C_CR1_START, I2C_CR1_STOP, I2C_CR1_PEC.
  rewrite !Z.lor_spec, !bit_bits by lia. reflexivity.
Qed.

(** Two values that agree on bits 8, 9 and 12 are pending alike. *)
Lemma cond_pending_ext (v w : Z) :
  Z.land v cr1_cond_mask = Z.land w cr1_cond_mask ->
  cond_pending v = cond_pending w.
Proof.
  intros E. unfold cond_pending. rewrite E. reflexivity.
Qed.

Section MoreRegisterFacts.

Variable hw : i2c_reg_map -> i2c_reg_map.

(** Acknowledge generation.  When the hardware leaves CR1 alone,
    [i2c_enable_ack] sets ACK and [i2c_disable_ack] clears it again, and
    neither changes another bit of CR1: whether a START, STOP or PEC is
    pending and whether the peripheral is enabled stay as they were. *)
Theorem i2c_ack_enable_then_disable (d : i2c_dev)
    (Hkeep : hw_keeps R_CR1 hw) :
  exists d1 l1 d2 l2,
    i2c_enable_ack hw d = Some (tt, d1, l1)
    /\ i2c_disable_ack hw d1 = Some (tt, d2, l2)
    /\ Z.testbit (CR1 (regs d1)) 10 = true
    /\ Z.testbit (CR1 (regs d2)) 10 = false
    /\ Z.land (CR1 (regs d1)) (not32 I2C_CR1_ACK)
       = Z.land (CR1 (regs d)) (not32 I2C_CR1_ACK)
    /\ CR1 (regs d2) = Z.land (CR1 (regs d)) (not32 I2C_CR1_ACK)
    /\ cond_pending (CR1 (regs d1)) = cond_pending (CR1 (regs d))
    /\ cond_pending (CR1 (regs d2)) = cond_pending (CR1 (regs d))
    /\ Z.land (CR1 (regs d2)) I2C_CR1_PE = Z.land (CR1 (regs d)) I2C_CR1_PE.
Proof.
  pose proof (Hkeep (regs d)) as K1. simpl in K1.
  set (d1 := set_regs (set_regs d (hw (regs d)))
               (set_reg R_CR1 (Z.lor (CR1 (hw (regs d))) I2C_CR1_ACK)
                        (hw (regs d)))).
  pose proof (Hkeep (regs d1)) as K2. simpl in K2.
  assert (E : Z.land (Z.lor (CR1 (regs d)) I2C_CR1_ACK) (not32 I2C_CR1_ACK)
              = Z.land (CR1 (regs d)) (not32 I2C_CR1_ACK)).
  { rewrite Z.land_lor_distr_l, land_not32_self. apply Z.lor_0_r. }
  set (d2 := set_regs (set_regs d1 (hw (regs d1)))
               (set_reg R_CR1 (Z.land (CR1 (hw (regs d1))) (not32 I2C_CR1_ACK))
                        (hw (regs d1)))).
  exists d1. eexists. exists d2. eexists.
  split; [reflexivity |]. split; [reflexivity |].
  cbn [regs set_regs set_reg CR1 d1 d2]. rewrite K2, K1.
  split; [| split; [| split; [| split; [| split; [| split]]]]].
  - rewrite Z.lor_spec. unfold I2C_CR1_ACK. rewrite bit_bits by lia.
    apply orb_true_r.
  - rewrite Z.land_spec, not32_bits. unfold I2C_CR1_ACK.
    rewrite bit_bits by lia. simpl. apply andb_false_r.
  - exact E.
  - exact E.
  - apply cond_pending_ext. rewrite Z.land_lor_distr_l.
    change (Z.land I2C_CR1_ACK cr1_cond_mask) with 0. apply Z.lor_0_r.
  - apply cond_pending_ext. rewrite E, <- Z.land_assoc.
    change (Z.land (not32 I2C_CR1_ACK) cr1_cond_mask) with cr1_cond_mask.
    reflexivity.
  - rewrite E, <- Z.land_assoc.
    change (Z.land (not32 I2C_CR1_ACK) I2C_CR1_PE) with I2C_CR1_PE.
    reflexivity.
Qed.

(** Turning the peripheral back on after [i2c_disable].
    [i2c_peripheral_enable] sets PE and assigns nothing to the state: after
    [i2c_disable] followed by [i2c_peripheral_enable] the peripheral is
    enabled while the state still says Disabled. *)
Theorem i2c_disable_then_peripheral_enable (d : i2c_dev) :
  exists d' log,
    (i2c_disable hw ;;; i2c_peripheral_enable hw) d = Some (tt, d', log)
    /\ Z.testbit (CR1 (regs d')) 0 = true
    /\ state d' = I2C_STATE_DISABLED
    /\ state_writes log = [I2C_STATE_DISABLED].
Proof.
  do 2 eexists. split; [reflexivity |].
  cbn [regs set_regs set_state set_reg CR1 state].
  split; [| split; reflexivity].
  rewrite Z.lor_spec. unfold I2C_CR1_PE. rewrite bit_bits by lia.
  apply orb_true_r.
Qed.

(** [i2c_set_clk_control] with any value.  [val] is OR-ed in unmasked: the
    12-bit field takes the low bits of [val], and a bit of [val] above the
    field is set in CCR, so the call can set FS or DUTY but cannot clear a
    bit above the field. *)
Theorem i2c_set_clk_control_any (val : Z) (d : i2c_dev)
    (Hkeep : hw_keeps R_CCR hw) :
  exists d' log,
    i2c_set_clk_control hw val d = Some (tt, d', log)
    /\ (forall i, 0 <= i < 12 ->
          Z.testbit (CCR (regs d')) i = Z.testbit val i)
    /\ (forall i, 12 <= i < 32 ->
          Z.testbit (CCR (regs d')) i
          = Z.testbit (CCR (regs d)) i || Z.testbit val i)
    /\ (Z.testbit val 15 = true -> Z.testbit (CCR (regs d')) 15 = true)
    /\ (Z.testbit val 14 = true -> Z.testbit (CCR (regs d')) 14 = true).
Proof.
  pose proof (Hkeep (regs d)) as K. simpl in K.
  assert (Hhigh : forall i, 12 <= i < 32 ->
            Z.testbit (Z.lor (Z.land (CCR (regs d)) (not32 I2C_CCR_CCR)) val) i
            = Z.testbit (CCR (regs d)) i || Z.testbit val i).
  { intros i Hi. rewrite Z.lor_spec, Z.land_spec, not32_bits.
    unfold I2C_CCR_CCR. rewrite field_mask_bits.
    destruct (Z.leb_spec 0 i); [| lia].
    destruct (Z.ltb_spec i 12); [lia |].
    destruct (Z.ltb_spec i 32); [| lia].
    simpl. rewrite andb_true_r. reflexivity. }
  do 2 eexists. split; [reflexivity |].
  cbn [regs set_regs set_reg CCR get_reg]. rewrite K.
  split; [| split; [| split]].
  - intros i Hi. apply field12_low. exact Hi.
  - exact Hhigh.
  - intros Hv. rewrite Hhigh by lia. rewrite Hv. apply orb_true_r.
  - intros Hv. rewrite Hhigh by lia. rewrite Hv. apply orb_true_r.
Qed.

(** The input clock and the interrupts share CR2, and the order of the two
    calls matters: interrupts enabled before [i2c_set_input_clk] are lost,
    CR2 ending as [freq]; enabled after it they are kept, CR2 ending as
    [freq | irqs]. *)
Theorem i2c_set_input_clk_order (freq irqs : Z) (d : i2c_dev)
    (Hkeep : hw_keeps R_CR2 hw) :
  exists d1 l1 d2 l2,
    (i2c_enable_irq hw irqs ;;; i2c_set_input_clk hw freq) d
      = Some (tt, d1, l1)
    /\ CR2 (regs d1) = freq
    /\ (i2c_set_input_clk hw freq ;;; i2c_enable_irq hw irqs) d
       = Some (tt, d2, l2)
    /\ CR2 (regs d2) = Z.lor freq irqs.
Proof.
  set (da := set_regs (set_regs d (hw (regs d)))
               (set_reg R_CR2 freq (hw (regs d)))).
  pose proof (Hkeep (regs da)) as K. simpl in K.
  set (d2 := set_regs (set_regs da (hw (regs da)))
               (set_reg R_CR2 (Z.lor (CR2 (hw (regs da))) irqs)
                        (hw (regs da)))).
  eexists. eexists. exists d2. eexists.
  split; [reflexivity |]. split; [reflexivity |].
  split; [reflexivity |].
  cbn [regs set_regs set_reg CR2 da d2].
  rewrite K. reflexivity.
Qed.

(** Interrupt masks compose: when the hardware leaves CR2 alone, enabling
    [a] and then [b] leaves CR2 as enabling [a | b] at once does, and so
    for disabling. *)
Theorem i2c_irq_masks_compose (a b : Z) (d : i2c_dev)
    (Hkeep : hw_keeps R_CR2 hw) :
  exists e2 le2 e1 le1 x2 lx2 x1 lx1,
    (i2c_enable_irq hw a ;;; i2c_enable_irq hw b) d = Some (tt, e2, le2)
    /\ i2c_enable_irq hw (Z.lor a b) d = Some (tt, e1, le1)
    /\ CR2 (regs e2) = CR2 (regs e1)
    /\ CR2 (regs e1) = Z.lor (CR2 (regs d)) (Z.lor a b)
    /\ (i2c_disable_irq hw a ;;; i2c_disable_irq hw b) d = Some (tt, x2, lx2)
    /\ i2c_disable_irq hw (Z.lor a b) d = Some (tt, x1, lx1)
    /\ CR2 (regs x2) = CR2 (regs x1)
    /\ CR2 (regs x1) = Z.land (CR2 (regs d)) (not32 (Z.lor a b)).
Proof.
  pose proof (Hkeep (regs d)) as K1. simpl in K1.
  set (da := set_regs (set_regs d (hw (regs d)))
               (set_reg R_CR2 (Z.lor (CR2 (hw (regs d))) a) (hw (regs d)))).
  set (dx := set_regs (set_regs d (hw (regs d)))
               (set_reg R_CR2 (Z.land (CR2 (hw (regs d))) (not32 a))
                        (hw (regs d)))).
  pose proof (Hkeep (regs da)) as Ka. simpl in Ka.
  pose proof (Hkeep (regs dx)) as Kx. simpl in Kx.
  set (e2 := set_regs (set_regs da (hw (regs da)))
               (set_reg R_CR2 (Z.lor (CR2 (hw (regs da))) b) (hw (regs da)))).
  set (x2 := set_regs (set_regs dx (hw (regs dx)))
               (set_reg R_CR2 (Z.land (CR2 (hw (regs dx))) (not32 b))
                        (hw (regs dx)))).
  set (e1 := set_regs (set_regs d (hw (regs d)))
               (set_reg R_CR2 (Z.lor (CR2 (hw (regs d))) (Z.lor a b))
                        (hw (regs d)))).
  set (x1 := set_regs (set_regs d (hw (regs d)))
               (set_reg R_CR2 (Z.land (CR2 (hw (regs d))) (not32 (Z.lor a b)))
                        (hw (regs d)))).
  exists e2. eexists. exists e1. eexists. exists x2. eexists. exists x1. eexists.
  split; [reflexivity |]. split; [reflexivity |].
  split; [| split; [| split; [reflexivity | split; [reflexivity | split]]]].
  - cbn [regs set_regs set_reg CR2 da e2 e1].
    rewrite Ka, K1. symmetry. apply Z.lor_assoc.
  - cbn [regs set_regs set_reg CR2 e1]. rewrite K1. reflexivity.
  - cbn [regs set_regs set_reg CR2 dx x2 x1].
    rewrite Kx, K1, <- Z.land_assoc, not32_lor. reflexivity.
  - cbn [regs set_regs set_reg CR2 x1]. rewrite K1. reflexivity.
Qed.

End MoreRegisterFacts.

(** ** The busy-waits have no timeout *)

Lemma cond_pending_after_stop (v : Z) :
  cond_pending (Z.lor v I2C_CR1_STOP) = true.
Proof.
  destruct (cond_pending (Z.lor v I2C_CR1_STOP)) eqn:E; [reflexivity |].
  apply cond_pending_false in E.
  assert (Hb : Z.testbit (Z.land (Z.lor v I2C_CR1_STOP) cr1_cond_mask) 9 = false)
    by (rewrite E; apply Z.bits_0).
  rewrite Z.land_spec, Z.lor_spec, cond_mask_bits in Hb.
  unfold I2C_CR1_STOP in Hb. rewrite bit_bits in Hb by lia.
  simpl in Hb. rewrite orb_true_r in Hb. discriminate Hb.
Qed.

Lemma hw_still_stuck : hw_stuck hw_still.
Proof. intros m H. exact H. Qed.

Section NoTimeout.

Variable hw : i2c_reg_map -> i2c_reg_map.
Hypothesis Hstuck : hw_stuck hw.

Lemma wait_cond_clear_stuck (fuel : nat) :
  forall d, cond_pending (CR1 (regs d)) = true ->
            wait_cond_clear hw fuel d = None.
Proof.
  induction fuel as [| f IH]; intros d Hp; [reflexivity |].
  rewrite wait_cond_clear_step.
  rewrite (Hstuck _ Hp).
  rewrite IH; [reflexivity |].
  simpl. apply Hstuck. exact Hp.
Qed.

(** With a peripheral that never completes a pending condition,
    [i2c_stop_condition] never returns, however long it polls and whatever
    state the device is in, and [i2c_start_condition] never returns when a
    condition was pending at the call. *)
Theorem i2c_conditions_never_time_out (d : i2c_dev) :
  (forall fuel, i2c_stop_condition hw fuel d = None)
  /\ (cond_pending (CR1 (regs d)) = true ->
      forall fuel, i2c_start_condition hw fuel d = None).
Proof.
  split.
  - intros fuel. rewrite i2c_stop_condition_unfold.
    destruct (wait_cond_clear hw fuel d) as [[[v0 d0] l0] |]; [| reflexivity].
    rewrite wait_cond_clear_stuck; [reflexivity |].
    unfold after_set. cbn [regs set_regs set_reg CR1].
    apply cond_pending_after_stop.
  - intros Hp fuel. rewrite i2c_start_condition_unfold.
    rewrite wait_cond_clear_stuck by exact Hp. reflexivity.
Qed.

End NoTimeout.

Lemma i2c_conditions_never_time_out_witness :
  hw_stuck hw_still
  /\ i2c_stop_condition hw_still 50 (dev_with regs_reset I2C_STATE_IDLE) = None
  /\ i2c_start_condition hw_still 50
       (dev_with regs_stop_pending I2C_STATE_IDLE) = None.
Proof.
  split; [exact hw_still_stuck |].
  split.
  - exact (proj1 (i2c_conditions_never_time_out hw_still hw_still_stuck
                    (dev_with regs_reset I2C_STATE_IDLE)) 50%nat).
  - exact (proj2 (i2c_conditions_never_time_out hw_still hw_still_stuck
                    (dev_with regs_stop_pending I2C_STATE_IDLE))
                 eq_refl 50%nat).
Defined.

(** ** What the register routines leave alone *)

Lemma accesses_only_app (r : reg_name) (l1 l2 : list io_event) :
  accesses_only r l1 -> accesses_only r l2 -> accesses_only r (l1 ++ l2).
Proof.
  intros H1 H2 e He. apply in_app_or in He.
  destruct He as [He | He]; [apply H1 | apply H2]; exact He.
Qed.

Lemma accesses_only_reads (r : reg_name) (vs : list Z) :
  accesses_only r (map (IoRead r) vs).
Proof.
  intros e He. apply in_map_iff in He. destruct He as (v & <- & _).
  reflexivity.
Qed.

Lemma accesses_only_list (r : reg_name) (l : list io_event) :
  Forall (fun e => match e with
                   | IoRead r' _ | IoWrite r' _ => r' = r
                   | StateWrite _ => False
                   end) l ->
  accesses_only r l.
Proof.
  intros H e He. rewrite Forall_forall in H. exact (H e He).
Qed.

Lemma accesses_only_no_state (r : reg_name) (l : list io_event) :
  accesses_only r l -> state_writes l = [].
Proof.
  induction l as [| e l IH]; intros H; [reflexivity |].
  assert (He := H e (or_introl eq_refl)).
  assert (Hl : accesses_only r l) by (intros x Hx; apply H; right; exact Hx).
  destruct e; simpl; try (apply IH; exact Hl). contradiction.
Qed.

Lemma wait_cond_clear_accesses (hw : i2c_reg_map -> i2c_reg_map)
    (fuel : nat) (d : i2c_dev) (v : Z) (d' : i2c_dev) (log : list io_event) :
  wait_cond_clear hw fuel d = Some (v, d', log) ->
  accesses_only R_CR1 log /\ d' = set_regs d (regs d') /\ count_writes log = O.
Proof.
  intros H.
  destruct (wait_cond_clear_inv hw _ _ _ _ _ H) as (pre & -> & _ & _ & _ & Hd).
  split; [| split; [exact Hd |]].
  - apply accesses_only_app; [apply accesses_only_reads |].
    apply accesses_only_list. repeat constructor.
  - unfold count_writes. rewrite filter_app, length_app. simpl.
    rewrite Nat.add_0_r. clear. induction pre as [| x pre IH]; [reflexivity |].
    simpl. exact IH.
Qed.

(** One routine: it works on its own register only, writes it at most
    once, and changes no member of the device but the registers. *)
Lemma run_routine_frame (hw : i2c_reg_map -> i2c_reg_map) (fuel : nat)
    (r : reg_routine) (d d' : i2c_dev) (log : list io_event) :
  run_routine hw fuel r d = Some (tt, d', log) ->
  accesses_only (routine_reg r) log
  /\ (count_writes log <= 1)%nat
  /\ d' = set_regs d (regs d').
Proof.
  intros H.
  destruct r; cbn [run_routine routine_reg] in *.
  7: { rewrite i2c_start_condition_unfold in H.
    destruct (wait_cond_clear hw fuel d) as [[[v0 d0] l0] |] eqn:Hw;
      [| discriminate H].
    injection H as <- <-.
    destruct (wait_cond_clear_accesses hw _ _ _ _ _ Hw) as (Ha & Hd & Hc).
    split; [| split].
    + apply accesses_only_app; [exact Ha |].
      apply accesses_only_list. repeat constructor.
    + unfold count_writes in *. rewrite filter_app, length_app, Hc.
      simpl. lia.
    + unfold after_set. cbn [set_regs regs]. rewrite Hd. reflexivity. }
  7: { rewrite i2c_stop_condition_unfold in H.
    destruct (wait_cond_clear hw fuel d) as [[[v0 d0] l0] |] eqn:Hw0;
      [| discriminate H].
    destruct (wait_cond_clear hw fuel (after_set hw I2C_CR1_STOP d0))
      as [[[v1 d1] l1] |] eqn:Hw1; [| discriminate H].
    injection H as <- <-.
    destruct (wait_cond_clear_accesses hw _ _ _ _ _ Hw0) as (Ha0 & Hd0 & Hc0).
    destruct (wait_cond_clear_accesses hw _ _ _ _ _ Hw1) as (Ha1 & Hd1 & Hc1).
    split; [| split].
    + apply accesses_only_app; [exact Ha0 |].
      apply (accesses_only_app _ [_; _] l1); [| exact Ha1].
      apply accesses_only_list. repeat constructor.
    + unfold count_writes in *.
      rewrite filter_app, length_app, Hc0.
      cbn [app filter Datatypes.length]. rewrite Hc1. lia.
    + rewrite Hd1. unfold after_set. cbn [set_regs regs]. rewrite Hd0.
      reflexivity. }
  all: simpl in H; injection H as <- <-.
  all: split; [apply accesses_only_list; repeat (constructor; try reflexivity) |].
  all: split; [unfold count_writes; cbn [filter Datatypes.length]; lia
              | reflexivity].
Qed.

(** No sequence of the register routines other than [i2c_disable] touches
    the run state: whatever routines run, in whatever order and with
    whatever arguments, the state is never assigned and [state],
    [error_flags], [timestamp], the message queue and the pin and clock
    members are at return what they were; only the registers change. *)
Theorem register_routines_keep_run_state
    (hw : i2c_reg_map -> i2c_reg_map) (fuel : nat) (rs : list reg_routine) :
  forall (d d' : i2c_dev) (log : list io_event),
    run_routines hw fuel rs d = Some (tt, d', log) ->
    d' = set_regs d (regs d')
    /\ state d' = state d
    /\ error_flags d' = error_flags d
    /\ timestamp d' = timestamp d
    /\ state_writes log = []
    /\ (count_writes log <= List.length rs)%nat.
Proof.
  induction rs as [| r rs IH]; intros d d' log H.
  - injection H as <- <-. destruct d.
    split; [reflexivity |]. split; [reflexivity |]. split; [reflexivity |].
    split; [reflexivity |]. split; [reflexivity |]. apply Nat.le_refl.
  - simpl in H. unfold bind in H.
    destruct (run_routine hw fuel r d) as [[[[] d1] l1] |] eqn:Hr;
      [| discriminate H].
    destruct (run_routines hw fuel rs d1) as [[[[] d2] l2] |] eqn:Hrs;
      [| discriminate H].
    injection H as <- <-.
    destruct (run_routine_frame hw fuel r d d1 l1 Hr) as (Ha & Hc & Hd1).
    destruct (IH d1 d2 l2 Hrs) as (Hd2 & _ & _ & _ & Hs & Hn).
    assert (Hd : d2 = set_regs d (regs d2)).
    { rewrite Hd2 at 1. rewrite Hd1. reflexivity. }
    split; [exact Hd |].
    split; [rewrite Hd; reflexivity |].
    split; [rewrite Hd; reflexivity |].
    split; [rewrite Hd; reflexivity |].
    split.
    + rewrite state_writes_app, Hs, (accesses_only_no_state _ _ Ha).
      reflexivity.
    + unfold count_writes in *. rewrite filter_app, length_app.
      simpl List.length. lia.
Qed.

(** ** Witnesses for the register interface *)

Lemma hw_still_keeps (r : reg_name) : hw_keeps r hw_still.
Proof. intros m. reflexivity. Qed.

Lemma i2c_ack_enable_then_disable_witness :
  hw_keeps R_CR1 hw_still
  /\ exists d1 l1 d2 l2,
       i2c_enable_ack hw_still (dev_with regs_stop_pending I2C_STATE_BUSY)
         = Some (tt, d1, l1)
       /\ i2c_disable_ack hw_still d1 = Some (tt, d2, l2)
       /\ cond_pending (CR1 (regs d2)) = true.
Proof.
  split; [exact (hw_still_keeps R_CR1) |].
  destruct (i2c_ack_enable_then_disable hw_still
              (dev_with regs_stop_pending I2C_STATE_BUSY)
              (hw_still_keeps R_CR1))
    as (d1 & l1 & d2 & l2 & H1 & H2 & _ & _ & _ & _ & _ & Hp & _).
  exists d1, l1, d2, l2. split; [exact H1 |]. split; [exact H2 |].
  rewrite Hp. reflexivity.
Defined.

Lemma i2c_set_clk_control_any_witness :
  hw_keeps R_CCR hw_still
  /\ exists d' log,
       i2c_set_clk_control hw_still (Z.lor I2C_CCR_FS 30)
         (dev_with regs_reset I2C_STATE_IDLE) = Some (tt, d', log)
       /\ Z.testbit (CCR (regs d')) 15 = true.
Proof.
  split; [exact (hw_still_keeps R_CCR) |].
  destruct (i2c_set_clk_control_any hw_still (Z.lor I2C_CCR_FS 30)
              (dev_with regs_reset I2C_STATE_IDLE) (hw_still_keeps R_CCR))
    as (d' & log & Hrun & _ & _ & Hfs & _).
  exists d', log. split; [exact Hrun |]. apply Hfs. reflexivity.
Defined.

Lemma i2c_set_input_clk_order_witness :
  hw_keeps R_CR2 hw_still
  /\ exists d1 l1 d2 l2,
       (i2c_enable_irq hw_still I2C_IRQ_ERROR ;;; i2c_set_input_clk hw_still 36)
         (dev_with regs_reset I2C_STATE_IDLE) = Some (tt, d1, l1)
       /\ CR2 (regs d1) = 36
       /\ (i2c_set_input_clk hw_still 36 ;;; i2c_enable_irq hw_still I2C_IRQ_ERROR)
            (dev_with regs_reset I2C_STATE_IDLE) = Some (tt, d2, l2)
       /\ CR2 (regs d2) = 0x124.
Proof.
  split; [exact (hw_still_keeps R_CR2) |].
  destruct (i2c_set_input_clk_order hw_still 36 I2C_IRQ_ERROR
              (dev_with regs_reset I2C_STATE_IDLE) (hw_still_keeps R_CR2))
    as (d1 & l1 & d2 & l2 & H1 & E1 & H2 & E2).
  exists d1, l1, d2, l2.
  split; [exact H1 |]. split; [exact E1 |]. split; [exact H2 |].
  rewrite E2. reflexivity.
Defined.

Lemma i2c_irq_masks_compose_witness :
  hw_keeps R_CR2 hw_still
  /\ exists e2 le2,
       (i2c_enable_irq hw_still I2C_IRQ_ERROR ;;;
        i2c_enable_irq hw_still I2C_IRQ_BUFFER)
         (dev_with regs_reset I2C_STATE_IDLE) = Some (tt, e2, le2)
       /\ CR2 (regs e2) = 0x500.
Proof.
  split; [exact (hw_still_keeps R_CR2) |].
  destruct (i2c_irq_masks_compose hw_still I2C_IRQ_ERROR I2C_IRQ_BUFFER
              (dev_with regs_reset I2C_STATE_IDLE) (hw_still_keeps R_CR2))
    as (e2 & le2 & e1 & le1 & _ & _ & _ & _ & H2 & _ & E21 & E1 & _).
  exists e2, le2. split; [exact H2 |].
  rewrite E21, E1. reflexivity.
Defined.

Lemma register_routines_keep_run_state_witness :
  exists d' log,
    run_routines hw_settle 2 routines_send_byte
      (dev_with regs_reset I2C_STATE_BUSY) = Some (tt, d', log)
    /\ state d' = I2C_STATE_BUSY.
Proof.
  destruct (run_routines hw_settle 2 routines_send_byte
              (dev_with regs_reset I2C_STATE_BUSY))
    as [[[[] d'] log] |] eqn:E.
  - exists d', log. split; [reflexivity |].
    exact (proj1 (proj2 (register_routines_keep_run_state hw_settle 2
                           routines_send_byte _ _ _ E))).
  - vm_compute in E. discriminate E.
Defined.

(** * Wirish SPI *)

(** ** Enabling the device *)

(** The possible results of [determine_baud_rate] below the size of the
    table. *)
Lemma determine_baud_rate_cases (rcc : Z -> Spi.rcc_clk_domain)
    (dev : Spi.spi_dev) (freq : N) :
  (freq < 8)%N ->
  (Spi.determine_baud_rate 8 7 rcc dev freq = Spi.BaudAssert
   /\ rcc (Spi.clk_id dev) = Spi.RCC_APB2 /\ freq = 7%N)
  \/ (exists b,
        Spi.determine_baud_rate 8 7 rcc dev freq = Spi.BaudEntry (freq + 1) b
        /\ nth_error Spi.baud_rates (N.to_nat (freq + 1)) = Some b
        /\ rcc (Spi.clk_id dev) = Spi.RCC_APB2 /\ (freq < 7)%N)
  \/ (exists b,
        Spi.determine_baud_rate 8 7 rcc dev freq = Spi.BaudEntry freq b
        /\ nth_error Spi.baud_rates (N.to_nat freq) = Some b
        /\ rcc (Spi.clk_id dev) <> Spi.RCC_APB2).
Proof.
  intros Hf.
  assert (Hcases : (freq = 0 \/ freq = 1 \/ freq = 2 \/ freq = 3 \/ freq = 4
                    \/ freq = 5 \/ freq = 6 \/ freq = 7)%N) by lia.
  unfold Spi.determine_baud_rate.
  destruct (rcc (Spi.clk_id dev)) eqn:Hclk;
    repeat (destruct Hcases as [-> | Hcases]); try subst freq; simpl;
    first [ left; repeat split; reflexivity
          | right; left; eexists; repeat split; (reflexivity || lia)
          | right; right; eexists; repeat split; (reflexivity || discriminate) ].
Qed.

Lemma disable_pwm_no_enable (i : HardwareSPI.stm32_pin_info) :
  forallb (fun c => negb (HardwareSPI.is_enable_call c))
          (HardwareSPI.disable_pwm i) = true.
Proof.
  unfold HardwareSPI.disable_pwm.
  destruct (HardwareSPI.timer_device i =? 0); reflexivity.
Qed.

Lemma configure_gpios_no_enable (env : HardwareSPI.wirish_env)
    (dev : Spi.spi_dev) (as_master : bool) :
  forallb (fun c => negb (HardwareSPI.is_enable_call c))
          (HardwareSPI.configure_gpios env dev as_master) = true.
Proof.
  unfold HardwareSPI.configure_gpios.
  destruct (HardwareSPI.select_pins env dev) as [pins |]; [| reflexivity].
  cbv zeta. rewrite !forallb_app, !disable_pwm_no_enable.
  destruct as_master; reflexivity.
Qed.

Section Begin.

Variable env : HardwareSPI.wirish_env.
Hypothesis Hmax : HardwareSPI.MAX_SPI_FREQS env = 8%N.
Hypothesis Hslow : HardwareSPI.SPI_140_625KHZ env = 7%N.

(** [begin] with a bad argument.  A mode of 4 or more, or a frequency of
    [MAX_SPI_FREQS] or more, makes [begin] assert and, where [ASSERT]
    returns, return at once: the device is not initialized, no pin is
    configured and nothing is enabled. *)
Theorem begin_rejects_bad_arguments (dev : Spi.spi_dev) (frequency : N)
    (bitOrder mode : Z) :
  4 <= mode \/ (8 <= frequency)%N ->
  HardwareSPI.begin env dev frequency bitOrder mode = [HardwareSPI.CallAssert].
Proof.
  intros H. unfold HardwareSPI.begin.
  destruct (Z.leb_spec 4 mode) as [Hm | Hm]; [reflexivity |].
  destruct H as [H | H]; [lia |].
  unfold HardwareSPI.enable_device. rewrite Hmax.
  destruct (N.leb_spec 8 frequency); [reflexivity | lia].
Qed.



(** [beginSlave] never trips over the baud rate.  With a mode below 4,
    [beginSlave] passes the frequency 0, which is in the table on every
    bus: the call ends with the one call that enables the device as slave,
    without soft SS in its flags, and never enables it as master. *)
Theorem beginSlave_enables_slave_last (dev : Spi.spi_dev) (bitOrder mode : Z) :
  mode < 4 ->
  exists pre,
    HardwareSPI.beginSlave env dev bitOrder mode
    = pre ++ [HardwareSPI.CallSlaveEnable mode
                (Z.lor (Z.lor (Z.lor (if bitOrder =? HardwareSPI.MSBFIRST env
                                      then HardwareSPI.SPI_FRAME_MSB env
                                      else HardwareSPI.SPI_FRAME_LSB env)
                                     (HardwareSPI.SPI_DFF_8_BIT env))
                              (HardwareSPI.SPI_SW_SLAVE env)) 0)]
    /\ pre = HardwareSPI.CallSpiInit
               :: HardwareSPI.configure_gpios env dev false
    /\ forallb (fun c => negb (HardwareSPI.is_enable_call c)) pre = true.
Proof.
  intros Hm. unfold HardwareSPI.beginSlave.
  destruct (Z.leb_spec 4 mode) as [Hm' | _]; [lia |].
  cbv zeta. unfold HardwareSPI.enable_device. rewrite Hmax.
  change (8 <=? 0)%N with false. cbv iota.
  unfold HardwareSPI.baud_for. rewrite Hmax, Hslow. cbv zeta.
  assert (Hf : (0 < 8)%N) by reflexivity.
  destruct (determine_baud_rate_cases (HardwareSPI.rcc_dev_clk env) dev 0 Hf)
    as [(_ & _ & H7) | [(b & E & _) | (b & E & _)]];
    [discriminate H7 | |]; rewrite E;
    (exists (HardwareSPI.CallSpiInit
               :: HardwareSPI.configure_gpios env dev false);
     split; [reflexivity |]; split; [reflexivity |];
     simpl; apply configure_gpios_no_enable).
Qed.

End Begin.

(** The same frequency on both buses.  [determine_baud_rate] gives an APB2
    device (72 MHz) the divisor twice that of an APB1 device (36 MHz), so
    a frequency below the slowest selects the same SPI clock on both, and
    an APB1 device at the slowest frequency runs at 36 MHz / 256, that is
    140.625 KHz. *)
Theorem determine_baud_rate_same_clock (rcc : Z -> Spi.rcc_clk_domain)
    (dev1 dev2 : Spi.spi_dev) (freq : N) :
  rcc (Spi.clk_id dev1) = Spi.RCC_APB1 ->
  rcc (Spi.clk_id dev2) = Spi.RCC_APB2 ->
  (freq < 8)%N ->
  exists b1,
    Spi.determine_baud_rate 8 7 rcc dev1 freq = Spi.BaudEntry freq b1
    /\ HardwareSPI.baud_divisor b1 = 2 ^ (Z.of_N freq + 1)
    /\ HardwareSPI.pclk_hz (rcc (Spi.clk_id dev1))
       = HardwareSPI.baud_divisor b1 * (18000000 / 2 ^ Z.of_N freq)
    /\ (freq = 7%N -> HardwareSPI.pclk_hz (rcc (Spi.clk_id dev1))
                      / HardwareSPI.baud_divisor b1 = 140625)
    /\ ((freq < 7)%N ->
        exists b2,
          Spi.determine_baud_rate 8 7 rcc dev2 freq
          = Spi.BaudEntry (freq + 1) b2
          /\ HardwareSPI.baud_divisor b2 = 2 * HardwareSPI.baud_divisor b1
          /\ HardwareSPI.pclk_hz (rcc (Spi.clk_id dev2))
             / HardwareSPI.baud_divisor b2
             = HardwareSPI.pclk_hz (rcc (Spi.clk_id dev1))
               / HardwareSPI.baud_divisor b1).
Proof.
  intros H1 H2 Hf.
  assert (Hcases : (freq = 0 \/ freq = 1 \/ freq = 2 \/ freq = 3 \/ freq = 4
                    \/ freq = 5 \/ freq = 6 \/ freq = 7)%N) by lia.
  unfold Spi.determine_baud_rate. rewrite H1, H2.
  repeat (destruct Hcases as [-> | Hcases]); try subst freq;
    (eexists; split; [reflexivity |];
     split; [reflexivity |]; split; [reflexivity |];
     split; [intros E; try discriminate E; reflexivity |];
     intros Hlt;
     first [ exfalso; lia
           | eexists; split; [reflexivity |]; split; reflexivity ]).
Qed.

(** ** Reading, writing and shutting down *)

Lemma list_set_length (l : list Z) :
  forall i v, Datatypes.length (HardwareSPI.list_set l i v) = Datatypes.length l.
Proof.
  induction l as [| h t IH]; intros [| j] v; simpl; try reflexivity.
  rewrite IH. reflexivity.
Qed.

Lemma list_set_firstn (l : list Z) :
  forall i v, (i < Datatypes.length l)%nat ->
    firstn (S i) (HardwareSPI.list_set l i v) = firstn i l ++ [v].
Proof.
  induction l as [| h t IH]; intros [| j] v Hi; simpl in *; try lia.
  - reflexivity.
  - rewrite IH by lia. reflexivity.
Qed.

Lemma list_set_skipn (l : list Z) :
  forall i n v, (i < n)%nat ->
    skipn n (HardwareSPI.list_set l i v) = skipn n l.
Proof.
  induction l as [| h t IH]; intros [| j] [| n] v Hi; simpl; try lia;
    try reflexivity.
  apply IH. lia.
Qed.

Lemma firstn_plus {A : Type} (l : list A) :
  forall a b, firstn (a + b) l = firstn a l ++ firstn b (skipn a l).
Proof.
  induction l as [| h t IH]; intros [| a] b; simpl; try reflexivity.
  - destruct b; reflexivity.
  - rewrite IH. reflexivity.
Qed.

Lemma skipn_plus {A : Type} (l : list A) :
  forall a b, skipn (a + b) l = skipn b (skipn a l).
Proof.
  induction l as [| h t IH]; intros [| a] b; simpl; try reflexivity.
  - destruct b; reflexivity.
  - apply IH.
Qed.

Lemma last_in {A : Type} (l : list A) :
  forall a d, In (last (a :: l) d) (a :: l).
Proof.
  induction l as [| b l IH]; intros a d; [left; reflexivity |].
  right. exact (IH b d).
Qed.

Section PortFacts.

Variable world : Type.
Variable spi_is_enabled : world -> bool * world.
Variable spi_is_rx_nonempty : world -> bool * world.
Variable spi_rx_reg : world -> Z * world.
Variable spi_is_tx_empty : world -> bool * world.
Variable spi_is_busy : world -> bool * world.
Variable spi_peripheral_disable : world -> world.
Variable spi_tx : list Z -> Z -> world -> Z * world.

Local Abbreviation poll_until := (HardwareSPI.poll_until world).
Local Abbreviation wait_rx := (HardwareSPI.wait_rx world spi_is_rx_nonempty).
Local Abbreviation wait_tx_empty :=
  (HardwareSPI.wait_tx_empty world spi_is_tx_empty).
Local Abbreviation wait_not_busy := (HardwareSPI.wait_not_busy world spi_is_busy).
Local Abbreviation drain_rx :=
  (HardwareSPI.drain_rx world spi_is_rx_nonempty spi_rx_reg).
Local Abbreviation read_loop :=
  (HardwareSPI.read_loop world spi_is_rx_nonempty spi_rx_reg).
Local Abbreviation read_buf :=
  (HardwareSPI.read_buf world spi_is_rx_nonempty spi_rx_reg).
Local Abbreviation read := (HardwareSPI.read world spi_is_rx_nonempty spi_rx_reg).
Local Abbreviation write_loop := (HardwareSPI.write_loop world spi_tx).
Local Abbreviation write_buf := (HardwareSPI.write_buf world spi_tx).
Local Abbreviation write := (HardwareSPI.write world spi_tx).
Local Abbreviation transfer :=
  (HardwareSPI.transfer world spi_is_rx_nonempty spi_rx_reg spi_tx).
Local Abbreviation send :=
  (HardwareSPI.send world spi_is_rx_nonempty spi_rx_reg spi_tx).
Local Abbreviation send_buf :=
  (HardwareSPI.send_buf world spi_is_rx_nonempty spi_rx_reg spi_tx).
Local Abbreviation end_ :=
  (HardwareSPI.end_ world spi_is_enabled spi_is_rx_nonempty spi_rx_reg
                    spi_is_tx_empty spi_is_busy spi_peripheral_disable).

(** *** Polling a flag *)

Lemma poll_until_inv (f : world -> bool * world)
    (ev : bool -> HardwareSPI.spi_event) (target : bool) (fuel : nat) :
  forall s s' log,
    poll_until f ev target fuel s = Some (tt, s', log) ->
    exists k, log = repeat (ev (negb target)) k ++ [ev target].
Proof.
  induction fuel as [| n IH]; intros s s' log H; [discriminate H |].
  simpl in H.
  destruct (Bool.eqb (fst (f s)) target) eqn:E.
  - injection H as <- <-. apply Bool.eqb_prop in E. rewrite E.
    exists O. reflexivity.
  - destruct (poll_until f ev target n (snd (f s))) as [[[[] s1] l1] |] eqn:Hp;
      [| discriminate H].
    injection H as <- <-.
    destruct (IH _ _ _ Hp) as [k ->].
    exists (S k). simpl.
    replace (fst (f s)) with (negb target); [reflexivity |].
    revert E. destruct (fst (f s)), target; simpl; congruence.
Qed.

Lemma poll_until_mono (f : world -> bool * world)
    (ev : bool -> HardwareSPI.spi_event) (target : bool) (fuel : nat) :
  forall s r fuel', (fuel <= fuel')%nat ->
    poll_until f ev target fuel s = Some r ->
    poll_until f ev target fuel' s = Some r.
Proof.
  induction fuel as [| n IH]; intros s r fuel' Hle H; [discriminate H |].
  destruct fuel' as [| n']; [lia |].
  simpl in *.
  destruct (Bool.eqb (fst (f s)) target); [exact H |].
  destruct (poll_until f ev target n (snd (f s))) as [[[[] s1] l1] |] eqn:Hp;
    [| discriminate H].
  rewrite (IH _ _ n' ltac:(lia) Hp). exact H.
Qed.

Lemma poll_until_step (f : world -> bool * world)
    (ev : bool -> HardwareSPI.spi_event) (target : bool) (n : nat) (s : world) :
  poll_until f ev target (S n) s
  = if Bool.eqb (fst (f s)) target
    then Some (tt, snd (f s), [ev (fst (f s))])
    else match poll_until f ev target n (snd (f s)) with
         | None => None
         | Some (_, s', l) => Some (tt, s', ev (fst (f s)) :: l)
         end.
Proof. reflexivity. Qed.

Lemma poll_until_enough (f : world -> bool * world)
    (ev : bool -> HardwareSPI.spi_event) (target : bool) (n : nat) :
  forall s,
    fst (f (Nat.iter n (fun x => snd (f x)) s)) = target ->
    exists r, poll_until f ev target (S n) s = Some r.
Proof.
  induction n as [| n IH]; intros s H; rewrite poll_until_step.
  - simpl in H. rewrite H, Bool.eqb_reflx. eexists. reflexivity.
  - destruct (Bool.eqb (fst (f s)) target); [eexists; reflexivity |].
    destruct (IH (snd (f s))) as [[[[] s1] l1] Hp].
    + rewrite Nat.iter_succ_r in H. exact H.
    + rewrite Hp. eexists. reflexivity.
Qed.

Lemma poll_until_returns (f : world -> bool * world)
    (ev : bool -> HardwareSPI.spi_event) (target : bool) (s : world) :
  HardwareSPI.flag_reaches world f target ->
  exists fuel r, poll_until f ev target fuel s = Some r.
Proof.
  intros Hr. destruct (Hr s) as [n Hn].
  exists (S n). apply poll_until_enough. exact Hn.
Qed.

(** The three waits are polls of a flag. *)
Lemma wait_rx_poll (fuel : nat) (s : world) :
  wait_rx fuel s
  = poll_until spi_is_rx_nonempty HardwareSPI.EvRxNonempty true fuel s.
Proof.
  revert s. induction fuel as [| n IH]; intros s; [reflexivity |].
  simpl. unfold HardwareSPI.bind, HardwareSPI.call_is_rx_nonempty.
  destruct (fst (spi_is_rx_nonempty s)); simpl; [reflexivity |].
  rewrite IH.
  destruct (poll_until _ _ _ n _) as [[[[] s1] l1] |]; reflexivity.
Qed.

Lemma wait_tx_empty_poll (fuel : nat) (s : world) :
  wait_tx_empty fuel s
  = poll_until spi_is_tx_empty HardwareSPI.EvTxEmpty true fuel s.
Proof.
  revert s. induction fuel as [| n IH]; intros s; [reflexivity |].
  simpl. unfold HardwareSPI.bind, HardwareSPI.call_is_tx_empty.
  destruct (fst (spi_is_tx_empty s)); simpl; [reflexivity |].
  rewrite IH.
  destruct (poll_until _ _ _ n _) as [[[[] s1] l1] |]; reflexivity.
Qed.

Lemma wait_not_busy_poll (fuel : nat) (s : world) :
  wait_not_busy fuel s
  = poll_until spi_is_busy HardwareSPI.EvBusy false fuel s.
Proof.
  revert s. induction fuel as [| n IH]; intros s; [reflexivity |].
  simpl. unfold HardwareSPI.bind, HardwareSPI.call_is_busy.
  destruct (fst (spi_is_busy s)); simpl; [| reflexivity].
  rewrite IH.
  destruct (poll_until _ _ _ n _) as [[[[] s1] l1] |]; reflexivity.
Qed.

Lemma received_polls (ev : bool -> HardwareSPI.spi_event) (b : bool) (k : nat) :
  (forall x, HardwareSPI.received [ev x] = []) ->
  HardwareSPI.received (repeat (ev b) k ++ [ev b]) = []
  /\ forall c, HardwareSPI.received (repeat (ev b) k ++ [ev c]) = [].
Proof.
  intros Hev.
  assert (H : forall c, HardwareSPI.received (repeat (ev b) k ++ [ev c]) = []).
  { intros c. induction k as [| k IH]; simpl; [apply Hev |].
    specialize (Hev b). simpl in Hev.
    destruct (ev b); try exact IH. discriminate Hev. }
  split; [apply H | exact H].
Qed.

Lemma received_app (l1 l2 : list HardwareSPI.spi_event) :
  HardwareSPI.received (l1 ++ l2)
  = HardwareSPI.received l1 ++ HardwareSPI.received l2.
Proof.
  induction l1 as [| e l1 IH]; [reflexivity |].
  destruct e; simpl; rewrite IH; reflexivity.
Qed.

Lemma wait_rx_received (fuel : nat) (s s' : world)
    (log : list HardwareSPI.spi_event) :
  wait_rx fuel s = Some (tt, s', log) ->
  HardwareSPI.received log = []
  /\ exists k, log = repeat (HardwareSPI.EvRxNonempty false) k
                       ++ [HardwareSPI.EvRxNonempty true].
Proof.
  intros H. rewrite wait_rx_poll in H.
  destruct (poll_until_inv _ _ _ _ _ _ _ H) as [k ->].
  split; [| exists k; reflexivity].
  apply (received_polls HardwareSPI.EvRxNonempty false k).
  intros x. reflexivity.
Qed.

(** *** [read] *)

Lemma read_loop_step (t w : nat) (len rxed : Z) (buf : list Z) (s : world) :
  read_loop (S t) w len rxed buf s
  = if rxed <? len then
      match wait_rx w s with
      | None => None
      | Some (_, s1, l1) =>
          match read_loop t w len (HardwareSPI.u32 (rxed + 1))
                  (HardwareSPI.list_set buf (Z.to_nat rxed)
                     (HardwareSPI.u8 (fst (spi_rx_reg s1))))
                  (snd (spi_rx_reg s1)) with
          | None => None
          | Some (b, s2, l2) =>
              Some (b, s2,
                    l1 ++ HardwareSPI.EvRxReg (fst (spi_rx_reg s1)) :: l2)
          end
      end
    else Some (buf, s, []).
Proof.
  cbn [HardwareSPI.read_loop].
  destruct (rxed <? len); [| reflexivity].
  unfold HardwareSPI.bind, HardwareSPI.call_rx_reg.
  destruct (wait_rx w s) as [[[[] s1] l1] |]; [| reflexivity].
  destruct (read_loop t w len _ _ _) as [[[b s2] l2] |]; reflexivity.
Qed.

Lemma reads_when_ready_polls (k : nat) (l : list HardwareSPI.spi_event) :
  forall p,
    HardwareSPI.reads_when_ready p
      ((repeat (HardwareSPI.EvRxNonempty false) k
          ++ [HardwareSPI.EvRxNonempty true]) ++ l)
    = HardwareSPI.reads_when_ready true l.
Proof.
  induction k as [| k IH]; intros p; [reflexivity |].
  simpl. apply IH.
Qed.

Lemma read_loop_content (t w : nat) (len : Z) :
  forall rxed buf s buf' s' log,
    0 <= rxed <= len -> len < 2 ^ 32 ->
    (Z.to_nat len <= Datatypes.length buf)%nat ->
    read_loop t w len rxed buf s = Some (buf', s', log) ->
    buf' = firstn (Z.to_nat rxed) buf
             ++ map HardwareSPI.u8 (HardwareSPI.received log)
             ++ skipn (Z.to_nat len) buf
    /\ Datatypes.length (HardwareSPI.received log) = Z.to_nat (len - rxed)
    /\ HardwareSPI.reads_when_ready false log = true.
Proof.
  induction t as [| t IH]; intros rxed buf s buf' s' log Hr Hlen Hbuf H;
    [discriminate H |].
  rewrite read_loop_step in H.
  destruct (Z.ltb_spec rxed len) as [Hlt | Hge].
  - destruct (wait_rx w s) as [[[[] s1] l1] |] eqn:Hw; [| discriminate H].
    destruct (read_loop t w len _ _ _) as [[[b s2] l2] |] eqn:Hl;
      [| discriminate H].
    injection H as <- <- <-.
    destruct (wait_rx_received _ _ _ _ Hw) as [Hrec [k Hk]].
    assert (Hu : HardwareSPI.u32 (rxed + 1) = rxed + 1)
      by (apply Z.mod_small; lia).
    rewrite Hu in Hl.
    apply IH in Hl; [| lia | lia | rewrite list_set_length; exact Hbuf].
    destruct Hl as (Hb & Hn & Hrd).
    rewrite received_app, Hrec. cbn [app HardwareSPI.received map].
    split; [| split].
    + rewrite Hb.
      replace (Z.to_nat (rxed + 1)) with (S (Z.to_nat rxed)) by lia.
      rewrite list_set_firstn by lia.
      rewrite list_set_skipn by lia.
      rewrite <- app_assoc. reflexivity.
    + cbn [Datatypes.length]. rewrite Hn. lia.
    + rewrite Hk, reads_when_ready_polls. simpl. exact Hrd.
  - injection H as <- <- <-.
    assert (rxed = len) by lia. subst rxed.
    replace (len - len) with 0 by lia.
    split; [| split; reflexivity].
    simpl. symmetry. apply firstn_skipn.
Qed.

Lemma read_loop_mono (t : nat) :
  forall w len rxed buf s r t' w',
    (t <= t')%nat -> (w <= w')%nat ->
    read_loop t w len rxed buf s = Some r ->
    read_loop t' w' len rxed buf s = Some r.
Proof.
  induction t as [| t IH]; intros w len rxed buf s r t' w' Ht Hw H;
    [discriminate H |].
  destruct t' as [| t']; [lia |].
  rewrite read_loop_step in *.
  destruct (rxed <? len); [| exact H].
  destruct (wait_rx w s) as [[[[] s1] l1] |] eqn:Hwait; [| discriminate H].
  rewrite wait_rx_poll in Hwait.
  rewrite wait_rx_poll, (poll_until_mono _ _ _ _ _ _ w' Hw Hwait).
  destruct (read_loop t w len _ _ _) as [[[b s2] l2] |] eqn:Hl;
    [| discriminate H].
  rewrite (IH _ _ _ _ _ _ t' w' ltac:(lia) Hw Hl). exact H.
Qed.

Lemma read_loop_returns (len : Z) :
  HardwareSPI.rx_arrives world spi_is_rx_nonempty ->
  len < 2 ^ 32 ->
  forall n rxed buf s,
    0 <= rxed -> (Z.to_nat (len - rxed) <= n)%nat ->
    exists t w r, read_loop t w len rxed buf s = Some r.
Proof.
  intros Harr Hlen.
  induction n as [| n IH]; intros rxed buf s Hr Hn.
  - exists 1%nat, O. rewrite read_loop_step.
    destruct (Z.ltb_spec rxed len); [lia |]. eexists. reflexivity.
  - destruct (Z.ltb_spec rxed len) as [Hlt | Hge].
    + destruct (poll_until_returns spi_is_rx_nonempty
                  HardwareSPI.EvRxNonempty true s Harr)
        as (w1 & [[[] s1] l1] & Hw1).
      destruct (IH (rxed + 1)
                  (HardwareSPI.list_set buf (Z.to_nat rxed)
                     (HardwareSPI.u8 (fst (spi_rx_reg s1))))
                  (snd (spi_rx_reg s1)) ltac:(lia) ltac:(lia))
        as (t2 & w2 & [[b s2] l2] & Hl2).
      exists (S t2), (Nat.max w1 w2). rewrite read_loop_step.
      destruct (Z.ltb_spec rxed len); [| lia].
      rewrite wait_rx_poll.
      rewrite (poll_until_mono _ _ _ w1 _ _ (Nat.max w1 w2) ltac:(lia) Hw1).
      replace (HardwareSPI.u32 (rxed + 1)) with (rxed + 1)
        by (symmetry; apply Z.mod_small; lia).
      rewrite (read_loop_mono t2 w2 _ _ _ _ _ t2 (Nat.max w1 w2)
                 ltac:(lia) ltac:(lia) Hl2).
      eexists. reflexivity.
    + exists 1%nat, O. rewrite read_loop_step.
      destruct (Z.ltb_spec rxed len); [lia |]. eexists. reflexivity.
Qed.

(** [read(buf, len)].  When words keep arriving, the call returns; and
    whenever it returns it has read exactly [len] words from the data
    register, each only after a poll found the receiver non-empty, and
    stored their low 8 bits in [buf[0 .. len-1]] in the order of arrival;
    the rest of the buffer is untouched. *)
Theorem read_buf_fills (buf : list Z) (len : Z) (s : world)
    (Hlen : 0 <= len < 2 ^ 32)
    (Hbuf : (Z.to_nat len <= Datatypes.length buf)%nat)
    (Harr : HardwareSPI.rx_arrives world spi_is_rx_nonempty) :
  (exists fuel r, read_buf fuel buf len s = Some r)
  /\ (forall fuel buf' s' log,
        read_buf fuel buf len s = Some (buf', s', log) ->
        buf' = map HardwareSPI.u8 (HardwareSPI.received log)
                 ++ skipn (Z.to_nat len) buf
        /\ Datatypes.length (HardwareSPI.received log) = Z.to_nat len
        /\ Datatypes.length buf' = Datatypes.length buf
        /\ Forall (fun b => 0 <= b < 256) (firstn (Z.to_nat len) buf')
        /\ HardwareSPI.reads_when_ready false log = true).
Proof.
  split.
  - destruct (read_loop_returns len Harr ltac:(lia) (Z.to_nat len) 0 buf s
                ltac:(lia) ltac:(lia)) as (t & w & r & H).
    exists (Nat.max t w), r. unfold HardwareSPI.read_buf.
    apply (read_loop_mono t w _ _ _ _ _ (Nat.max t w) (Nat.max t w)
             ltac:(lia) ltac:(lia) H).
  - intros fuel buf' s' log H. unfold HardwareSPI.read_buf in H.
    apply read_loop_content in H; [| lia | lia | exact Hbuf].
    destruct H as (Hb & Hn & Hrd). simpl in Hb.
    replace (len - 0) with len in Hn by lia.
    split; [exact Hb |]. split; [exact Hn |].
    assert (Hm : Datatypes.length (map HardwareSPI.u8 (HardwareSPI.received log))
                 = Z.to_nat len) by (rewrite length_map; exact Hn).
    split; [| split; [| exact Hrd]].
    + rewrite Hb, length_app, Hm, length_skipn. lia.
    + rewrite Hb, firstn_app, Hm, Nat.sub_diag. simpl. rewrite app_nil_r.
      rewrite firstn_all2 by lia.
      apply Forall_forall. intros b Hin. apply in_map_iff in Hin.
      destruct Hin as (v & <- & _). unfold HardwareSPI.u8.
      apply Z.mod_pos_bound. lia.
Qed.

(** *** [write] *)

Lemma transmitted_app (l1 l2 : list HardwareSPI.spi_event) :
  HardwareSPI.transmitted (l1 ++ l2)
  = HardwareSPI.transmitted l1 ++ HardwareSPI.transmitted l2.
Proof.
  induction l1 as [| e l1 IH]; [reflexivity |].
  destruct e; simpl; rewrite IH; try reflexivity.
  apply app_assoc.
Qed.

Lemma write_loop_step (t : nat) (data : list Z) (len txed : Z) (s : world) :
  write_loop (S t) data len txed s
  = if txed <? len then
      let r := spi_tx (skipn (Z.to_nat txed) data)
                      (HardwareSPI.u32 (len - txed)) s in
      match write_loop t data len (HardwareSPI.u32 (txed + fst r)) (snd r) with
      | None => None
      | Some (_, s2, l2) =>
          Some (tt, s2,
                HardwareSPI.EvTx (skipn (Z.to_nat txed) data)
                                 (HardwareSPI.u32 (len - txed)) (fst r) :: l2)
      end
    else Some (tt, s, []).
Proof.
  cbn [HardwareSPI.write_loop].
  destruct (txed <? len); [| reflexivity].
  unfold HardwareSPI.bind, HardwareSPI.call_tx. cbv zeta.
  destruct (write_loop t data len _ _) as [[[[] s2] l2] |]; reflexivity.
Qed.

Lemma write_loop_content (Hhonest : HardwareSPI.tx_honest world spi_tx)
    (t : nat) (data : list Z) (len : Z) :
  forall txed s s' log,
    0 <= txed <= len -> len < 2 ^ 32 ->
    write_loop t data len txed s = Some (tt, s', log) ->
    HardwareSPI.transmitted log
    = firstn (Z.to_nat (len - txed)) (skipn (Z.to_nat txed) data).
Proof.
  induction t as [| t IH]; intros txed s s' log Hr Hlen H; [discriminate H |].
  rewrite write_loop_step in H.
  destruct (Z.ltb_spec txed len) as [Hlt | Hge].
  - cbv zeta in H.
    assert (Hu : HardwareSPI.u32 (len - txed) = len - txed)
      by (apply Z.mod_small; lia).
    rewrite Hu in H.
    set (r := spi_tx (skipn (Z.to_nat txed) data) (len - txed) s) in *.
    assert (Hn : 0 <= fst r <= len - txed) by (apply Hhonest; lia).
    assert (Hu2 : HardwareSPI.u32 (txed + fst r) = txed + fst r)
      by (apply Z.mod_small; lia).
    rewrite Hu2 in H.
    destruct (write_loop t data len (txed + fst r) (snd r))
      as [[[[] s2] l2] |] eqn:Hl; [| discriminate H].
    injection H as <- <-.
    apply IH in Hl; [| lia | lia].
    cbn [HardwareSPI.transmitted]. rewrite Hl.
    replace (Z.to_nat (len - txed))
      with (Z.to_nat (fst r) + Z.to_nat (len - (txed + fst r)))%nat by lia.
    rewrite firstn_plus, <- skipn_plus.
    replace (Z.to_nat (txed + fst r))
      with (Z.to_nat txed + Z.to_nat (fst r))%nat by lia.
    reflexivity.
  - injection H as <- <-.
    replace (Z.to_nat (len - txed)) with O by lia. reflexivity.
Qed.

Lemma write_loop_returns (Hhonest : HardwareSPI.tx_honest world spi_tx)
    (Hprog : HardwareSPI.tx_progresses world spi_tx)
    (data : list Z) (len : Z) (Hlen : len < 2 ^ 32) (t : nat) :
  forall txed s,
    0 <= txed <= len -> (Z.to_nat (len - txed) < t)%nat ->
    exists r, write_loop t data len txed s = Some r.
Proof.
  induction t as [| t IH]; intros txed s Hr Ht; [lia |].
  rewrite write_loop_step.
  destruct (Z.ltb_spec txed len) as [Hlt | Hge]; [| eexists; reflexivity].
  cbv zeta.
  assert (Hu : HardwareSPI.u32 (len - txed) = len - txed)
    by (apply Z.mod_small; lia).
  rewrite Hu.
  set (r := spi_tx (skipn (Z.to_nat txed) data) (len - txed) s).
  assert (Hn : 0 <= fst r <= len - txed) by (apply Hhonest; lia).
  assert (Hp : 0 < fst r) by (apply Hprog; lia).
  assert (Hu2 : HardwareSPI.u32 (txed + fst r) = txed + fst r)
    by (apply Z.mod_small; lia).
  rewrite Hu2.
  destruct (IH (txed + fst r) (snd r) ltac:(lia) ltac:(lia))
    as [[[[] s2] l2] Hl].
  rewrite Hl. eexists. reflexivity.
Qed.

(** [write(data, length)].  With an [spi_tx] that reports at most the
    bytes it was offered, a call that returns has handed over exactly
    [data[0 .. length-1]], in order, each call to [spi_tx] resuming where
    the previous one stopped; with a length of 0 it makes no call.  When
    [spi_tx] also takes at least one byte each time, the call returns
    within [length] turns of its loop. *)
Theorem write_buf_sends_all (data : list Z) (len : Z) (s : world)
    (Hlen : 0 <= len < 2 ^ 32)
    (Hhonest : HardwareSPI.tx_honest world spi_tx) :
  (forall fuel s' log,
     write_buf fuel data len s = Some (tt, s', log) ->
     HardwareSPI.transmitted log = firstn (Z.to_nat len) data
     /\ (len = 0 -> log = [] /\ s' = s))
  /\ (HardwareSPI.tx_progresses world spi_tx ->
      forall fuel, (Z.to_nat len < fuel)%nat ->
        exists s' log, write_buf fuel data len s = Some (tt, s', log)).
Proof.
  split.
  - intros fuel s' log H. unfold HardwareSPI.write_buf in H.
    split.
    + apply (write_loop_content Hhonest) in H; [| lia | lia].
      rewrite H. replace (len - 0) with len by lia. reflexivity.
    + intros ->. destruct fuel as [| t]; [discriminate H |].
      rewrite write_loop_step in H. simpl in H.
      injection H as <- <-. split; reflexivity.
  - intros Hprog fuel Hf. unfold HardwareSPI.write_buf.
    destruct (write_loop_returns Hhonest Hprog data len ltac:(lia) fuel 0 s
                ltac:(lia) ltac:(lia)) as [[[[] s'] log] H].
    exists s', log. exact H.
Qed.

(** [write] has no timeout: while [spi_tx] takes no byte, a write of one
    byte or more never returns, however many turns its loop is given. *)
Theorem write_buf_never_gives_up (data : list Z) (len : Z) (s : world)
    (Hlen : 0 < len)
    (Hstall : HardwareSPI.tx_stalled world spi_tx) :
  forall fuel, write_buf fuel data len s = None.
Proof.
  intros fuel. unfold HardwareSPI.write_buf.
  revert s. induction fuel as [| t IH]; intros s; [reflexivity |].
  rewrite write_loop_step.
  destruct (Z.ltb_spec 0 len); [| lia].
  cbv zeta. rewrite Hstall.
  change (HardwareSPI.u32 (0 + 0)) with 0.
  rewrite IH. reflexivity.
Qed.

(** *** [end] *)

Lemma drain_rx_step (n : nat) (s : world) :
  drain_rx (S n) s
  = if fst (spi_is_rx_nonempty s) then
      match drain_rx n (snd (spi_rx_reg (snd (spi_is_rx_nonempty s)))) with
      | None => None
      | Some (_, s', l) =>
          Some (tt, s',
                HardwareSPI.EvRxNonempty true
                  :: HardwareSPI.EvRxReg
                       (fst (spi_rx_reg (snd (spi_is_rx_nonempty s))))
                  :: l)
      end
    else Some (tt, snd (spi_is_rx_nonempty s),
               [HardwareSPI.EvRxNonempty false]).
Proof.
  cbn [HardwareSPI.drain_rx].
  unfold HardwareSPI.bind, HardwareSPI.call_is_rx_nonempty,
    HardwareSPI.call_rx_reg.
  destruct (fst (spi_is_rx_nonempty s)); [| reflexivity].
  destruct (drain_rx n _) as [[[[] s'] l] |]; reflexivity.
Qed.

Lemma drain_rx_inv (n : nat) :
  forall s s' log,
    drain_rx n s = Some (tt, s', log) ->
    exists vs,
      log = flat_map (fun v => [HardwareSPI.EvRxNonempty true;
                                HardwareSPI.EvRxReg v]) vs
              ++ [HardwareSPI.EvRxNonempty false].
Proof.
  induction n as [| n IH]; intros s s' log H; [discriminate H |].
  rewrite drain_rx_step in H.
  destruct (fst (spi_is_rx_nonempty s)).
  - destruct (drain_rx n _) as [[[[] s1] l1] |] eqn:Hd; [| discriminate H].
    injection H as <- <-.
    destruct (IH _ _ _ Hd) as [vs ->].
    exists (fst (spi_rx_reg (snd (spi_is_rx_nonempty s))) :: vs). reflexivity.
  - injection H as <- <-. exists []. reflexivity.
Qed.

Lemma drain_rx_mono (n : nat) :
  forall s r n', (n <= n')%nat ->
    drain_rx n s = Some r -> drain_rx n' s = Some r.
Proof.
  induction n as [| n IH]; intros s r n' Hle H; [discriminate H |].
  destruct n' as [| n']; [lia |].
  rewrite drain_rx_step in *.
  destruct (fst (spi_is_rx_nonempty s)); [| exact H].
  destruct (drain_rx n _) as [[[[] s1] l1] |] eqn:Hd; [| discriminate H].
  rewrite (IH _ _ n' ltac:(lia) Hd). exact H.
Qed.

Lemma drain_rx_enough (n : nat) :
  forall s,
    fst (spi_is_rx_nonempty
           (Nat.iter n (fun x => snd (spi_rx_reg (snd (spi_is_rx_nonempty x))))
                     s)) = false ->
    exists r, drain_rx (S n) s = Some r.
Proof.
  induction n as [| n IH]; intros s H; rewrite drain_rx_step.
  - simpl in H. rewrite H. eexists. reflexivity.
  - destruct (fst (spi_is_rx_nonempty s)); [| eexists; reflexivity].
    destruct (IH (snd (spi_rx_reg (snd (spi_is_rx_nonempty s)))))
      as [[[[] s1] l1] Hd].
    + rewrite Nat.iter_succ_r in H. exact H.
    + rewrite Hd. eexists. reflexivity.
Qed.

Lemma end_unfold (fuel : nat) (s : world) :
  end_ fuel s
  = if fst (spi_is_enabled s) then
      match drain_rx fuel (snd (spi_is_enabled s)) with
      | None => None
      | Some (_, s1, l1) =>
          match wait_tx_empty fuel s1 with
          | None => None
          | Some (_, s2, l2) =>
              match wait_not_busy fuel s2 with
              | None => None
              | Some (_, s3, l3) =>
                  Some (tt, spi_peripheral_disable s3,
                        HardwareSPI.EvIsEnabled true
                          :: l1 ++ l2 ++ l3
                          ++ [HardwareSPI.EvPeripheralDisable])
              end
          end
      end
    else Some (tt, snd (spi_is_enabled s), [HardwareSPI.EvIsEnabled false]).
Proof.
  unfold HardwareSPI.end_, HardwareSPI.bind, HardwareSPI.call_is_enabled,
    HardwareSPI.call_peripheral_disable.
  destruct (fst (spi_is_enabled s)); [| reflexivity].
  cbn [negb].
  destruct (drain_rx fuel _) as [[[[] s1] l1] |]; [| reflexivity].
  destruct (wait_tx_empty fuel s1) as [[[[] s2] l2] |]; [| reflexivity].
  destruct (wait_not_busy fuel s2) as [[[[] s3] l3] |]; reflexivity.
Qed.

(** [end].  On a device that is not enabled [end] does nothing beyond
    asking.  On an enabled device that empties its receiver and finishes
    its transmission, [end] returns, and whenever it returns it has, in
    this order, read the data register for as long as the receiver was
    non-empty, waited until the transmitter was empty, waited until the
    device was not busy, and only then turned the peripheral off, as its
    last call. *)
Theorem end_drains_then_disables (s : world)
    (Hrx : HardwareSPI.rx_drains world spi_is_rx_nonempty spi_rx_reg)
    (Htx : HardwareSPI.flag_reaches world spi_is_tx_empty true)
    (Hbusy : HardwareSPI.flag_reaches world spi_is_busy false) :
  (exists fuel s' log, end_ fuel s = Some (tt, s', log))
  /\ (forall fuel s' log,
        end_ fuel s = Some (tt, s', log) ->
        if fst (spi_is_enabled s) then
          exists vs k j,
            log = [HardwareSPI.EvIsEnabled true]
                    ++ flat_map (fun v => [HardwareSPI.EvRxNonempty true;
                                           HardwareSPI.EvRxReg v]) vs
                    ++ [HardwareSPI.EvRxNonempty false]
                    ++ repeat (HardwareSPI.EvTxEmpty false) k
                    ++ [HardwareSPI.EvTxEmpty true]
                    ++ repeat (HardwareSPI.EvBusy true) j
                    ++ [HardwareSPI.EvBusy false;
                        HardwareSPI.EvPeripheralDisable]
        else log = [HardwareSPI.EvIsEnabled false]
             /\ s' = snd (spi_is_enabled s)).
Proof.
  split.
  - destruct (fst (spi_is_enabled s)) eqn:En.
    + destruct (Hrx (snd (spi_is_enabled s))) as [n Hn].
      destruct (drain_rx_enough n _ Hn) as [[[[] s1] l1] H1].
      destruct (poll_until_returns spi_is_tx_empty HardwareSPI.EvTxEmpty true
                  s1 Htx) as (f2 & [[[] s2] l2] & H2).
      destruct (poll_until_returns spi_is_busy HardwareSPI.EvBusy false
                  s2 Hbusy) as (f3 & [[[] s3] l3] & H3).
      exists (Nat.max (S n) (Nat.max f2 f3)).
      rewrite end_unfold, En.
      rewrite (drain_rx_mono (S n) _ _ (Nat.max (S n) (Nat.max f2 f3))
                 ltac:(lia) H1).
      rewrite wait_tx_empty_poll.
      rewrite (poll_until_mono _ _ _ f2 _ _ (Nat.max (S n) (Nat.max f2 f3))
                 ltac:(lia) H2).
      rewrite wait_not_busy_poll.
      rewrite (poll_until_mono _ _ _ f3 _ _ (Nat.max (S n) (Nat.max f2 f3))
                 ltac:(lia) H3).
      do 2 eexists. reflexivity.
    + exists O. rewrite end_unfold, En. do 2 eexists. reflexivity.
  - intros fuel s' log H. rewrite end_unfold in H.
    destruct (fst (spi_is_enabled s)).
    + destruct (drain_rx fuel _) as [[[[] s1] l1] |] eqn:H1; [| discriminate H].
      destruct (wait_tx_empty fuel s1) as [[[[] s2] l2] |] eqn:H2;
        [| discriminate H].
      destruct (wait_not_busy fuel s2) as [[[[] s3] l3] |] eqn:H3;
        [| discriminate H].
      injection H as <- <-.
      destruct (drain_rx_inv _ _ _ _ H1) as [vs ->].
      rewrite wait_tx_empty_poll in H2.
      destruct (poll_until_inv _ _ _ _ _ _ _ H2) as [k ->].
      rewrite wait_not_busy_poll in H3.
      destruct (poll_until_inv _ _ _ _ _ _ _ H3) as [j ->].
      exists vs, k, j. cbn [negb app]. rewrite <- !app_assoc. reflexivity.
    + injection H as <- <-. split; reflexivity.
Qed.

(** *** [send] and [transfer] *)

(** [send] of a single byte and [transfer] do the same: both write the
    byte and then read one, returning it.  [send] of an empty buffer
    asserts and returns 0 without touching the device. *)
Theorem send_is_transfer (fuel : nat) (byte : Z) (buf : list Z) (s : world) :
  (2 <= fuel)%nat ->
  send fuel byte s = transfer fuel byte s
  /\ send_buf fuel buf 0 s = Some (0, s, [HardwareSPI.EvAssert]).
Proof.
  intros Hf. split; [| reflexivity].
  destruct fuel as [| [| t]]; [lia | lia |].
  unfold HardwareSPI.send, HardwareSPI.send_buf, HardwareSPI.transfer.
  change (1 =? 0) with false. cbv iota.
  cbn [HardwareSPI.send_loop]. change (0 <? 1) with true. cbv iota.
  change (HardwareSPI.u32 (0 + 1)) with 1. change (1 <? 1) with false.
  cbv iota. change (nth (Z.to_nat 0) [byte] 0) with byte.
  unfold HardwareSPI.bind.
  destruct (write (S (S t)) byte s) as [[[[] s1] l1] |]; [| reflexivity].
  destruct (read (S (S t)) s1) as [[[v s2] l2] |]; [| reflexivity].
  unfold HardwareSPI.ret. rewrite app_nil_r. reflexivity.
Qed.

Lemma write_loop_received (t : nat) (data : list Z) (len : Z) :
  forall txed s s' log,
    write_loop t data len txed s = Some (tt, s', log) ->
    HardwareSPI.received log = [].
Proof.
  induction t as [| t IH]; intros txed s s' log H; [discriminate H |].
  rewrite write_loop_step in H.
  destruct (txed <? len).
  - cbv zeta in H.
    destruct (write_loop t data len _ _) as [[[[] s2] l2] |] eqn:Hl;
      [| discriminate H].
    injection H as <- <-. simpl. exact (IH _ _ _ _ Hl).
  - injection H as <- <-. reflexivity.
Qed.

Lemma transmitted_polls (k : nat) :
  HardwareSPI.transmitted
    (repeat (HardwareSPI.EvRxNonempty false) k
       ++ [HardwareSPI.EvRxNonempty true]) = [].
Proof.
  induction k as [| k IH]; [reflexivity | exact IH].
Qed.

Lemma read_loop_transmitted (t w : nat) (len : Z) :
  forall rxed buf s buf' s' log,
    read_loop t w len rxed buf s = Some (buf', s', log) ->
    HardwareSPI.transmitted log = [].
Proof.
  induction t as [| t IH]; intros rxed buf s buf' s' log H; [discriminate H |].
  rewrite read_loop_step in H.
  destruct (rxed <? len).
  - destruct (wait_rx w s) as [[[[] s1] l1] |] eqn:Hw; [| discriminate H].
    destruct (read_loop t w len _ _ _) as [[[b s2] l2] |] eqn:Hl;
      [| discriminate H].
    injection H as <- <- <-.
    destruct (wait_rx_received _ _ _ _ Hw) as [_ [k ->]].
    rewrite transmitted_app, transmitted_polls. simpl.
    exact (IH _ _ _ _ _ _ Hl).
  - injection H as <- <- <-. reflexivity.
Qed.

(** One byte out. *)
Lemma write_one (Hhonest : HardwareSPI.tx_honest world spi_tx)
    (w : nat) (byte : Z) (s s1 : world) (l1 : list HardwareSPI.spi_event) :
  write w byte s = Some (tt, s1, l1) ->
  HardwareSPI.transmitted l1 = [byte] /\ HardwareSPI.received l1 = [].
Proof.
  intros H. unfold HardwareSPI.write, HardwareSPI.write_buf in H.
  split.
  - apply (write_loop_content Hhonest) in H; [| lia | lia]. exact H.
  - exact (write_loop_received _ _ _ _ _ _ _ H).
Qed.

(** One byte in. *)
Lemma read_one (w : nat) (s s1 : world) (v : Z)
    (l1 : list HardwareSPI.spi_event) :
  read w s = Some (v, s1, l1) ->
  exists x, HardwareSPI.received l1 = [x] /\ v = HardwareSPI.u8 x
            /\ HardwareSPI.transmitted l1 = [].
Proof.
  intros H. unfold HardwareSPI.read, HardwareSPI.bind in H.
  destruct (read_buf w [0] 1 s) as [[[b s2] l2] |] eqn:Hr; [| discriminate H].
  injection H as <- <- <-. rewrite app_nil_r.
  unfold HardwareSPI.read_buf in Hr.
  pose proof (read_loop_transmitted _ _ _ _ _ _ _ _ _ Hr) as Ht.
  apply read_loop_content in Hr; [| lia | lia | simpl; lia].
  destruct Hr as (Hb & Hn & _).
  destruct (HardwareSPI.received l2) as [| x [| y rest]];
    try discriminate Hn.
  exists x. split; [reflexivity |]. split; [| exact Ht].
  rewrite Hb. reflexivity.
Qed.

(** [transfer].  With an [spi_tx] that reports at most the bytes it was
    offered, a [transfer] that returns has handed over exactly the byte
    given, has then read exactly one word from the data register, and
    returns the low 8 bits of that word. *)
Theorem transfer_exchanges_one_byte (fuel : nat) (byte : Z) (s s' : world)
    (v : Z) (log : list HardwareSPI.spi_event)
    (Hhonest : HardwareSPI.tx_honest world spi_tx) :
  transfer fuel byte s = Some (v, s', log) ->
  HardwareSPI.transmitted log = [byte]
  /\ (exists x, HardwareSPI.received log = [x] /\ v = HardwareSPI.u8 x)
  /\ 0 <= v < 256
  /\ exists lw lr,
       log = lw ++ lr
       /\ HardwareSPI.received lw = [] /\ HardwareSPI.transmitted lr = [].
Proof.
  intros H. unfold HardwareSPI.transfer, HardwareSPI.bind in H.
  destruct (write fuel byte s) as [[[[] s1] l1] |] eqn:Hw; [| discriminate H].
  destruct (read fuel s1) as [[[v2 s2] l2] |] eqn:Hr; [| discriminate H].
  injection H as <- <- <-.
  destruct (write_one Hhonest _ _ _ _ _ Hw) as [Ht1 Hr1].
  destruct (read_one _ _ _ _ _ Hr) as (x & Hr2 & Hv & Ht2).
  rewrite transmitted_app, received_app, Ht1, Hr1, Ht2, Hr2.
  split; [reflexivity |].
  split; [exists x; split; [reflexivity | exact Hv] |].
  split; [rewrite Hv; unfold HardwareSPI.u8; apply Z.mod_pos_bound; lia |].
  exists l1, l2. split; [reflexivity |]. split; assumption.
Qed.

Lemma send_loop_step (t w : nat) (buf : list Z) (len txed r : Z) (s : world) :
  HardwareSPI.send_loop world spi_is_rx_nonempty spi_rx_reg spi_tx
                        (S t) w buf len txed r s
  = if txed <? len then
      match write w (nth (Z.to_nat txed) buf 0) s with
      | None => None
      | Some (_, s1, l1) =>
          match read w s1 with
          | None => None
          | Some (r', s2, l2) =>
              match HardwareSPI.send_loop world spi_is_rx_nonempty spi_rx_reg
                      spi_tx t w buf len (HardwareSPI.u32 (txed + 1)) r' s2 with
              | None => None
              | Some (v, s3, l3) => Some (v, s3, l1 ++ l2 ++ l3)
              end
          end
      end
    else Some (r, s, []).
Proof.
  cbn [HardwareSPI.send_loop].
  destruct (txed <? len); [| reflexivity].
  unfold HardwareSPI.bind.
  destruct (write w _ s) as [[[[] s1] l1] |]; [| reflexivity].
  destruct (read w s1) as [[[r' s2] l2] |]; [| reflexivity].
  destruct (HardwareSPI.send_loop _ _ _ _ t w buf len _ r' s2)
    as [[[v s3] l3] |]; reflexivity.
Qed.

Lemma firstn_skipn_cons (l : list Z) :
  forall i k, (i < Datatypes.length l)%nat ->
    firstn (S k) (skipn i l) = nth i l 0 :: firstn k (skipn (S i) l).
Proof.
  induction l as [| h t IH]; intros [| i] k Hi; simpl in *; try lia.
  - reflexivity.
  - apply IH. lia.
Qed.

Lemma send_loop_content (Hhonest : HardwareSPI.tx_honest world spi_tx)
    (t w : nat) (buf : list Z) (len : Z) :
  forall txed r s v s' log,
    0 <= txed <= len -> len < 2 ^ 32 ->
    (Z.to_nat len <= Datatypes.length buf)%nat ->
    HardwareSPI.send_loop world spi_is_rx_nonempty spi_rx_reg spi_tx
                          t w buf len txed r s = Some (v, s', log) ->
    HardwareSPI.transmitted log
    = firstn (Z.to_nat (len - txed)) (skipn (Z.to_nat txed) buf)
    /\ Datatypes.length (HardwareSPI.received log) = Z.to_nat (len - txed)
    /\ v = last (map HardwareSPI.u8 (HardwareSPI.received log)) r.
Proof.
  induction t as [| t IH]; intros txed r s v s' log Hr Hlen Hbuf H;
    [discriminate H |].
  rewrite send_loop_step in H.
  destruct (Z.ltb_spec txed len) as [Hlt | Hge].
  - destruct (write w _ s) as [[[[] s1] l1] |] eqn:Hw; [| discriminate H].
    destruct (read w s1) as [[[r' s2] l2] |] eqn:Hrd; [| discriminate H].
    destruct (HardwareSPI.send_loop _ _ _ _ t w buf len _ r' s2)
      as [[[v3 s3] l3] |] eqn:Hl; [| discriminate H].
    injection H as <- <- <-.
    destruct (write_one Hhonest _ _ _ _ _ Hw) as [Ht1 Hr1].
    destruct (read_one _ _ _ _ _ Hrd) as (x & Hr2 & Hv & Ht2).
    replace (HardwareSPI.u32 (txed + 1)) with (txed + 1) in Hl
      by (symmetry; apply Z.mod_small; lia).
    apply IH in Hl; [| lia | lia | exact Hbuf].
    destruct Hl as (Ht3 & Hn3 & Hv3).
    rewrite !transmitted_app, !received_app, Ht1, Hr1, Ht2, Hr2, Ht3.
    split; [| split].
    + replace (Z.to_nat (len - txed))
        with (S (Z.to_nat (len - (txed + 1)))) by lia.
      rewrite firstn_skipn_cons by lia.
      replace (Z.to_nat (txed + 1)) with (S (Z.to_nat txed)) by lia.
      reflexivity.
    + simpl. rewrite Hn3. lia.
    + rewrite Hv3, Hv. cbn [app map].
      destruct (map HardwareSPI.u8 (HardwareSPI.received l3)) as [| z l];
        [reflexivity |].
      change (last (z :: l) (HardwareSPI.u8 x) = last (z :: l) r).
      apply last_cons_default.
  - injection H as <- <- <-.
    replace (Z.to_nat (len - txed)) with O by lia.
    split; [reflexivity |]. split; reflexivity.
Qed.

(** [send(buf, len)].  With an [spi_tx] that reports at most the bytes it
    was offered, a [send] of [len] bytes that returns has handed over
    [buf[0 .. len-1]] in order, has read exactly [len] words, one after
    each byte, and returns the low 8 bits of the last word read. *)
Theorem send_buf_exchanges (fuel : nat) (buf : list Z) (len : Z)
    (s s' : world) (v : Z) (log : list HardwareSPI.spi_event)
    (Hhonest : HardwareSPI.tx_honest world spi_tx)
    (Hlen : 0 < len < 2 ^ 32)
    (Hbuf : (Z.to_nat len <= Datatypes.length buf)%nat) :
  send_buf fuel buf len s = Some (v, s', log) ->
  HardwareSPI.transmitted log = firstn (Z.to_nat len) buf
  /\ Datatypes.length (HardwareSPI.received log) = Z.to_nat len
  /\ v = last (map HardwareSPI.u8 (HardwareSPI.received log)) 0
  /\ 0 <= v < 256.
Proof.
  intros H. unfold HardwareSPI.send_buf in H.
  destruct (Z.eqb_spec len 0) as [E | _]; [lia |].
  apply (send_loop_content Hhonest) in H; [| lia | lia | exact Hbuf].
  destruct H as (Ht & Hn & Hv).
  replace (len - 0) with len in * by lia.
  split; [exact Ht |]. split; [exact Hn |]. split; [exact Hv |].
  rewrite Hv.
  destruct (HardwareSPI.received log) as [| x rest] eqn:E;
    [simpl in Hn; lia |].
  assert (Hall : Forall (fun b => 0 <= b < 256)
                        (map HardwareSPI.u8 (x :: rest))).
  { apply Forall_forall. intros b Hin. apply in_map_iff in Hin.
    destruct Hin as (y & <- & _). unfold HardwareSPI.u8.
    apply Z.mod_pos_bound. lia. }
  rewrite Forall_forall in Hall. apply Hall.
  change (map HardwareSPI.u8 (x :: rest))
    with (HardwareSPI.u8 x :: map HardwareSPI.u8 rest).
  apply last_in.
Qed.

End PortFacts.

(** ** Witnesses for the SPI methods *)

Lemma maple_env_table :
  HardwareSPI.MAX_SPI_FREQS HardwareSPI.maple_env = 8%N
  /\ HardwareSPI.SPI_140_625KHZ HardwareSPI.maple_env = 7%N.
Proof. split; reflexivity. Qed.

Lemma sim_tx_honest : HardwareSPI.tx_honest HardwareSPI.sim_world HardwareSPI.sim_tx.
Proof.
  intros buf len s Hl. unfold HardwareSPI.sim_tx.
  destruct (Z.leb_spec len 0); simpl; lia.
Qed.

Lemma sim_tx_progresses :
  HardwareSPI.tx_progresses HardwareSPI.sim_world HardwareSPI.sim_tx.
Proof.
  intros buf len s Hl. unfold HardwareSPI.sim_tx.
  destruct (Z.leb_spec len 0); simpl; lia.
Qed.

Lemma sim_rx_drains :
  HardwareSPI.rx_drains HardwareSPI.sim_world HardwareSPI.sim_is_rx_nonempty
                        HardwareSPI.sim_rx_reg.
Proof.
  intros [q sent]. exists (Datatypes.length q).
  revert sent. induction q as [| x q IH]; intros sent; [reflexivity |].
  cbn [Datatypes.length]. rewrite Nat.iter_succ_r. apply IH.
Qed.

Lemma sim_tx_empty_reached :
  HardwareSPI.flag_reaches HardwareSPI.sim_world HardwareSPI.sim_is_tx_empty true.
Proof. intros s. exists O. reflexivity. Qed.

Lemma sim_not_busy_reached :
  HardwareSPI.flag_reaches HardwareSPI.sim_world HardwareSPI.sim_is_busy false.
Proof. intros s. exists O. reflexivity. Qed.

Lemma ready_rx_arrives :
  HardwareSPI.rx_arrives unit HardwareSPI.ready_is_rx_nonempty.
Proof. intros s. exists O. reflexivity. Qed.

Lemma begin_rejects_bad_arguments_witness :
  HardwareSPI.MAX_SPI_FREQS HardwareSPI.maple_env = 8%N
  /\ (4 <= 7 \/ (8 <= 2)%N)
  /\ HardwareSPI.begin HardwareSPI.maple_env Spi.spi1 2 1 7
     = [HardwareSPI.CallAssert].
Proof.
  assert (H : 4 <= 7 \/ (8 <= 2)%N) by (left; lia).
  split; [reflexivity |]. split; [exact H |].
  exact (begin_rejects_bad_arguments HardwareSPI.maple_env eq_refl eq_refl
           Spi.spi1 2 1 7 H).
Defined.


Example begin_unknown_clock :
  HardwareSPI.begin HardwareSPI.maple_env (Spi.mk_spi_dev 99) 4 1 0
  = [HardwareSPI.CallSpiInit; HardwareSPI.CallAssert;
     HardwareSPI.CallMasterEnable
       (Spi.BaudEntry 4 Spi.SPI_BAUD_PCLK_DIV_32) 0 0x300].
Proof. reflexivity. Qed.

Lemma beginSlave_enables_slave_last_witness :
  2 < 4
  /\ exists pre,
       HardwareSPI.beginSlave HardwareSPI.maple_env Spi.spi1 0 2
       = pre ++ [HardwareSPI.CallSlaveEnable 2 0x280].
Proof.
  assert (Hm : 2 < 4) by lia.
  split; [exact Hm |].
  destruct (beginSlave_enables_slave_last HardwareSPI.maple_env eq_refl eq_refl
              Spi.spi1 0 2 Hm) as (pre & Hrun & _).
  exists pre. exact Hrun.
Defined.

Lemma determine_baud_rate_same_clock_witness :
  (4 < 8)%N
  /\ exists b1,
       Spi.determine_baud_rate 8 7 Spi.rcc_dev_clk_maple (Spi.mk_spi_dev 14) 4
       = Spi.BaudEntry 4 b1
       /\ HardwareSPI.baud_divisor b1 = 32.
Proof.
  assert (Hf : (4 < 8)%N) by reflexivity.
  split; [exact Hf |].
  destruct (determine_baud_rate_same_clock Spi.rcc_dev_clk_maple
              (Spi.mk_spi_dev 14) Spi.spi1 4 eq_refl eq_refl Hf)
    as (b1 & Hrun & Hdiv & _).
  exists b1. split; [exact Hrun | exact Hdiv].
Defined.

Lemma read_buf_fills_witness :
  0 <= 2 < 2 ^ 32
  /\ (exists fuel r,
        HardwareSPI.read_buf unit HardwareSPI.ready_is_rx_nonempty
          HardwareSPI.ready_rx_reg fuel [7; 8; 9] 2 tt = Some r)
  /\ exists buf' s' log,
       HardwareSPI.read_buf unit HardwareSPI.ready_is_rx_nonempty
         HardwareSPI.ready_rx_reg 3 [7; 8; 9] 2 tt = Some (buf', s', log)
       /\ buf' = map HardwareSPI.u8 (HardwareSPI.received log) ++ [9]
       /\ HardwareSPI.reads_when_ready false log = true.
Proof.
  assert (Hl : 0 <= 2 < 2 ^ 32) by lia.
  assert (Hb : (Z.to_nat 2 <= 3)%nat) by (simpl; lia).
  split; [exact Hl |].
  destruct (read_buf_fills unit HardwareSPI.ready_is_rx_nonempty
              HardwareSPI.ready_rx_reg [7; 8; 9] 2 tt Hl Hb ready_rx_arrives)
    as [Hret Hall].
  split; [exact Hret |].
  destruct (HardwareSPI.read_buf unit HardwareSPI.ready_is_rx_nonempty
              HardwareSPI.ready_rx_reg 3 [7; 8; 9] 2 tt)
    as [[[buf' s'] log] |] eqn:E; [| vm_compute in E; discriminate E].
  exists buf', s', log. split; [reflexivity |].
  destruct (Hall _ _ _ _ E) as (Hbuf & _ & _ & _ & Hrd).
  split; [exact Hbuf | exact Hrd].
Defined.

Lemma write_buf_sends_all_witness :
  0 <= 3 < 2 ^ 32
  /\ exists s' log,
       HardwareSPI.write_buf HardwareSPI.sim_world HardwareSPI.sim_tx 4
         [1; 2; 3; 4] 3 ([], []) = Some (tt, s', log)
       /\ HardwareSPI.transmitted log = [1; 2; 3].
Proof.
  assert (Hl : 0 <= 3 < 2 ^ 32) by lia.
  split; [exact Hl |].
  destruct (write_buf_sends_all HardwareSPI.sim_world HardwareSPI.sim_tx
              [1; 2; 3; 4] 3 ([], []) Hl sim_tx_honest) as [Hcontent Hret].
  destruct (Hret sim_tx_progresses 4%nat ltac:(simpl; lia))
    as (s' & log & Hrun).
  exists s', log. split; [exact Hrun |].
  exact (proj1 (Hcontent _ _ _ Hrun)).
Defined.

Lemma write_buf_never_gives_up_witness :
  0 < 1
  /\ HardwareSPI.write_buf HardwareSPI.sim_world HardwareSPI.stalled_tx 1000
       [0x55] 1 ([], []) = None.
Proof.
  assert (Hl : 0 < 1) by lia.
  split; [exact Hl |].
  exact (write_buf_never_gives_up HardwareSPI.sim_world HardwareSPI.stalled_tx
           [0x55] 1 ([], []) Hl (fun _ _ _ => eq_refl) 1000%nat).
Defined.

Lemma end_drains_then_disables_witness :
  exists fuel s' log,
    HardwareSPI.end_ HardwareSPI.sim_world HardwareSPI.sim_is_enabled
      HardwareSPI.sim_is_rx_nonempty HardwareSPI.sim_rx_reg
      HardwareSPI.sim_is_tx_empty HardwareSPI.sim_is_busy
      HardwareSPI.sim_peripheral_disable fuel ([0x11; 0x22], [])
    = Some (tt, s', log)
    /\ last log HardwareSPI.EvAssert = HardwareSPI.EvPeripheralDisable.
Proof.
  destruct (end_drains_then_disables HardwareSPI.sim_world
              HardwareSPI.sim_is_enabled HardwareSPI.sim_is_rx_nonempty
              HardwareSPI.sim_rx_reg HardwareSPI.sim_is_tx_empty
              HardwareSPI.sim_is_busy HardwareSPI.sim_peripheral_disable
              ([0x11; 0x22], []) sim_rx_drains sim_tx_empty_reached
              sim_not_busy_reached)
    as [(fuel & s' & log & Hrun) Hall].
  exists fuel, s', log. split; [exact Hrun |].
  pose proof (Hall _ _ _ Hrun) as H. cbn [fst HardwareSPI.sim_is_enabled] in H.
  destruct H as (vs & k & j & ->).
  rewrite !app_assoc.
  change [HardwareSPI.EvBusy false; HardwareSPI.EvPeripheralDisable]
    with ([HardwareSPI.EvBusy false] ++ [HardwareSPI.EvPeripheralDisable]).
  rewrite app_assoc. apply last_last.
Defined.

Lemma send_is_transfer_witness :
  (2 <= 3)%nat
  /\ HardwareSPI.send HardwareSPI.sim_world HardwareSPI.sim_is_rx_nonempty
       HardwareSPI.sim_rx_reg HardwareSPI.sim_tx 3 0x41 ([], [])
     = HardwareSPI.transfer HardwareSPI.sim_world HardwareSPI.sim_is_rx_nonempty
         HardwareSPI.sim_rx_reg HardwareSPI.sim_tx 3 0x41 ([], []).
Proof.
  assert (Hf : (2 <= 3)%nat) by lia.
  split; [exact Hf |].
  exact (proj1 (send_is_transfer HardwareSPI.sim_world
                  HardwareSPI.sim_is_rx_nonempty HardwareSPI.sim_rx_reg
                  HardwareSPI.sim_tx 3 0x41 [] ([], []) Hf)).
Defined.

Lemma transfer_exchanges_one_byte_witness :
  exists v s' log,
    HardwareSPI.transfer HardwareSPI.sim_world HardwareSPI.sim_is_rx_nonempty
      HardwareSPI.sim_rx_reg HardwareSPI.sim_tx 3 0x41 ([], [])
    = Some (v, s', log)
    /\ HardwareSPI.transmitted log = [0x41]
    /\ 0 <= v < 256.
Proof.
  destruct (HardwareSPI.transfer HardwareSPI.sim_world
              HardwareSPI.sim_is_rx_nonempty HardwareSPI.sim_rx_reg
              HardwareSPI.sim_tx 3 0x41 ([], []))
    as [[[v s'] log] |] eqn:E; [| vm_compute in E; discriminate E].
  exists v, s', log. split; [reflexivity |].
  destruct (transfer_exchanges_one_byte HardwareSPI.sim_world
              HardwareSPI.sim_is_rx_nonempty HardwareSPI.sim_rx_reg
              HardwareSPI.sim_tx _ _ _ _ _ _ sim_tx_honest E)
    as (Ht & _ & Hv & _).
  split; [exact Ht | exact Hv].
Defined.

Lemma send_buf_exchanges_witness :
  0 < 3 < 2 ^ 32
  /\ exists v s' log,
       HardwareSPI.send_buf HardwareSPI.sim_world
         HardwareSPI.sim_is_rx_nonempty HardwareSPI.sim_rx_reg
         HardwareSPI.sim_tx 4 [0x10; 0x20; 0x30] 3 ([], [])
       = Some (v, s', log)
       /\ HardwareSPI.transmitted log = [0x10; 0x20; 0x30].
Proof.
  assert (Hl : 0 < 3 < 2 ^ 32) by lia.
  split; [exact Hl |].
  destruct (HardwareSPI.send_buf HardwareSPI.sim_world
              HardwareSPI.sim_is_rx_nonempty HardwareSPI.sim_rx_reg
              HardwareSPI.sim_tx 4 [0x10; 0x20; 0x30] 3 ([], []))
    as [[[v s'] log] |] eqn:E; [| vm_compute in E; discriminate E].
  exists v, s', log. split; [reflexivity |].
  assert (Hb : (Z.to_nat 3 <= 3)%nat) by (simpl; lia).
  exact (proj1 (send_buf_exchanges HardwareSPI.sim_world
                  HardwareSPI.sim_is_rx_nonempty HardwareSPI.sim_rx_reg
                  HardwareSPI.sim_tx 4 [0x10; 0x20; 0x30] 3 ([], []) s' v log
                  sim_tx_honest Hl Hb E)).
Defined.

Example transfer_run :
  HardwareSPI.transfer HardwareSPI.sim_world HardwareSPI.sim_is_rx_nonempty
    HardwareSPI.sim_rx_reg HardwareSPI.sim_tx 3 0x41 ([], [])
  = Some (0x41, ([], [0x41]),
          [HardwareSPI.EvTx [0x41] 1 1; HardwareSPI.EvRxNonempty true;
           HardwareSPI.EvRxReg 0x141]).
Proof. reflexivity. Qed.

Example begin_default_run :
  HardwareSPI.begin_default HardwareSPI.maple_env Spi.spi1
  = [HardwareSPI.CallSpiInit;
     HardwareSPI.CallTimerDisable 3 1;
     HardwareSPI.CallMasterGpioCfg 1 1 10 13 12 11;
     HardwareSPI.CallMasterEnable
       (Spi.BaudEntry 5 Spi.SPI_BAUD_PCLK_DIV_64) 0 0x300].
Proof. reflexivity. Qed.
